(** * The band recommender front-end: [App.tsx]

    A shallow embedding of the single React component of the repository and
    of the parts of the JavaScript platform it relies on, followed by the
    properties of its submit handler and of its renderer.

    Conventions.
    - A JavaScript string is a Rocq [string] whose characters stand for the
      UTF-16 code units U+0000 to U+00FF, which covers every literal of the
      source.  [trim] and [toLowerCase] are the ECMAScript functions on that
      range.
    - A JavaScript number is an IEEE binary64 value given by its exact
      mathematical value, see [Number].
    - What arrives from the network is typed [any] in the source: it is an
      arbitrary JSON value, see [JsValue]. *)

From Stdlib Require Import String Ascii List Bool Arith ZArith NArith Lia.
From Stdlib Require Import DecimalString DecimalN.
Import ListNotations.

Local Open Scope string_scope.
Local Open Scope bool_scope.

(** ** Strings *)

Module JsString.

(** [WhiteSpace] and [LineTerminator] code points below U+0100:
    TAB, LF, VT, FF, CR, SP and NBSP. *)
Definition is_white_space (c : ascii) : bool :=
  let n := nat_of_ascii c in
  ((n =? 9) || (n =? 10) || (n =? 11) || (n =? 12) || (n =? 13)
   || (n =? 32) || (n =? 160))%nat.

Fixpoint trimStart (s : string) : string :=
  match s with
  | EmptyString => EmptyString
  | String c s' => if is_white_space c then trimStart s' else s
  end.

Fixpoint trimEnd (s : string) : string :=
  match s with
  | EmptyString => EmptyString
  | String c s' =>
      match trimEnd s' with
      | EmptyString => if is_white_space c then EmptyString else String c EmptyString
      | t => String c t
      end
  end.

(** [String.prototype.trim]. *)
Definition trim (s : string) : string := trimEnd (trimStart s).

(** Every code unit of the string is white space. *)
Fixpoint whitespace_only (s : string) : bool :=
  match s with
  | EmptyString => true
  | String c s' => is_white_space c && whitespace_only s'
  end.

(** Lower-case mapping of one code unit below U+0100: A-Z, and the
    Latin-1 capitals U+00C0 to U+00DE except the multiplication sign. *)
Definition lower_unit (c : ascii) : ascii :=
  let n := nat_of_ascii c in
  if (((65 <=? n) && (n <=? 90))
      || ((192 <=? n) && (n <=? 222) && negb (n =? 215)))%nat
  then ascii_of_nat (n + 32) else c.

(** [String.prototype.toLowerCase]. *)
Fixpoint toLowerCase (s : string) : string :=
  match s with
  | EmptyString => EmptyString
  | String c s' => String (lower_unit c) (toLowerCase s')
  end.

(** [ToBoolean] of a string: only the empty string is falsy. *)
Definition truthy (s : string) : bool :=
  match s with EmptyString => false | String _ _ => true end.

(** [a || b] on strings. *)
Definition or_else (a b : string) : string := if truthy a then a else b.

(** Decimal digits of a natural number, as [ToString] prints an integer
    that is small enough to be printed without an exponent. *)
Definition decimal (n : N) : string := NilZero.string_of_uint (N.to_uint n).

End JsString.

(** ** Numbers *)

Module JsNumber.

(** An IEEE binary64 value: not-a-number, an infinity, or the finite value
    [(-1)^negative * m * 2^e].  The value zero has [m = 0]. *)
Inductive t : Type :=
| NaN
| Infinity (negative : bool)
| Finite (negative : bool) (m : N) (e : Z).

(** The finite values that binary64 holds. *)
Definition is_double (x : t) : bool :=
  match x with
  | Finite _ m e => (m <? 2 ^ 53)%N && (-1074 <=? e)%Z && (e <=? 971)%Z
  | _ => true
  end.

Definition of_N (n : N) : t := Finite false n 0.

Definition pos_part (z : Z) : Z := Z.max z 0.
Definition neg_part (z : Z) : Z := Z.max (- z) 0.

(** Round to nearest, ties to even, of the positive rational [num / den]. *)
Definition round_half_even (num den : Z) : Z :=
  let q := (num / den)%Z in
  let r := (num mod den)%Z in
  match (2 * r ?= den)%Z with
  | Lt => q
  | Gt => (q + 1)%Z
  | Eq => if Z.even q then q else (q + 1)%Z
  end.

(** The binary64 value nearest to [(-1)^negative * p / q], which is what a
    numeric literal [p/q] of a JSON text denotes ([q] a power of ten). *)
Definition of_ratio (negative : bool) (p q : N) : t :=
  if (p =? 0)%N then Finite negative 0 0
  else
    let zp := Z.of_N p in
    let zq := Z.of_N q in
    let quot (e : Z) := (zp * 2 ^ neg_part e / (zq * 2 ^ pos_part e))%Z in
    let e0 := (Z.log2 zp - Z.log2 zq - 52)%Z in
    let e1 := if (quot e0 <? 2 ^ 52)%Z then (e0 - 1)%Z else e0 in
    let e2 := Z.max e1 (-1074) in
    let m := round_half_even (zp * 2 ^ neg_part e2) (zq * 2 ^ pos_part e2) in
    let (m', e') := if (m =? 2 ^ 53)%Z then (2 ^ 52, e2 + 1)%Z else (m, e2) in
    if (971 <? e')%Z then Infinity negative else Finite negative (Z.to_N m') e'.

(** [x >= 10^21] for the non-negative value [m * 2^e]. *)
Definition at_least_1e21 (m : N) (e : Z) : bool :=
  (10 ^ 21 * 2 ^ neg_part e <=? Z.of_N m * 2 ^ pos_part e)%Z.

(** The integer [n] for which [n / 10^f - m * 2^e] is closest to zero, the
    larger one when there are two: step 11.a of [toFixed]. *)
Definition fixed_integer (f : nat) (m : N) (e : Z) : N :=
  let num := (Z.of_N m * 2 ^ pos_part e * 10 ^ Z.of_nat f)%Z in
  let den := (2 ^ neg_part e)%Z in
  Z.to_N ((2 * num + den) / (2 * den)).

Fixpoint zeros (n : nat) : string :=
  match n with
  | O => EmptyString
  | S n' => String "0" (zeros n')
  end.

(** Steps 11.b and 11.c of [toFixed]: the digits of [n], padded with zeros
    on the left to at least [f + 1] digits, with a point before the last
    [f] digits. *)
Definition fixed_digits (f : nat) (n : N) : string :=
  let m := JsString.decimal n in
  match f with
  | O => m
  | S _ =>
      let k := String.length m in
      let m' := if (k <=? f)%nat then zeros (f + 1 - k) ++ m else m in
      let k' := String.length m' in
      substring 0 (k' - f) m' ++ "." ++ substring (k' - f) f m'
  end.

(** Canonical mantissa and exponent of a positive binary64 value
    [m * 2^e]: the mantissa has 53 bits unless the value is subnormal,
    where the exponent is -1074. *)
Definition canonical (m : N) (e : Z) : Z * Z :=
  let zm := Z.of_N m in
  let ec := Z.max (e + Z.log2 zm - 52) (-1074) in
  ((zm * 2 ^ pos_part (e - ec) / 2 ^ neg_part (e - ec))%Z, ec).

(** Whether the decimal [s * 10^p] rounds to the canonical value
    [mc * 2^ec]: it lies between the midpoints to the two neighbouring
    values, a midpoint included when [mc] is even. *)
Definition rounds_to (mc ec s p : Z) : bool :=
  let u := (ec - 2)%Z in
  let lo := if (mc =? 2 ^ 52)%Z && (-1074 <? ec)%Z
            then (4 * mc - 1)%Z else (4 * mc - 2)%Z in
  let hi := (4 * mc + 2)%Z in
  let v := (s * 10 ^ pos_part p * 2 ^ neg_part u)%Z in
  let scale := (2 ^ pos_part u * 10 ^ neg_part p)%Z in
  if Z.even mc
  then (lo * scale <=? v)%Z && (v <=? hi * scale)%Z
  else (lo * scale <? v)%Z && (v <? hi * scale)%Z.

(** The multiple of [10^p] that rounds to [mc * 2^ec] and is nearest to
    it, if there is one; of two that are equally near, the even one. *)
Definition digits_at (mc ec p : Z) : option Z :=
  let u := (ec - 2)%Z in
  let x := (4 * mc * 2 ^ pos_part u * 10 ^ neg_part p)%Z in
  let d := (10 ^ pos_part p * 2 ^ neg_part u)%Z in
  let s1 := (x / d)%Z in
  let s2 := (s1 + 1)%Z in
  let ok1 := (0 <? s1)%Z && rounds_to mc ec s1 p in
  let ok2 := rounds_to mc ec s2 p in
  match ok1, ok2 with
  | true, true =>
      match (2 * (x mod d) ?= d)%Z with
      | Lt => Some s1
      | Gt => Some s2
      | Eq => Some (if Z.even s1 then s1 else s2)
      end
  | true, false => Some s1
  | false, true => Some s2
  | false, false => None
  end.

(** Step 5 of [Number::toString]: the shortest digit string [s] and the
    exponent [p] of its last digit with [s * 10^p] rounding to the value;
    [p] runs downwards, so the first hit has the fewest digits. *)
Fixpoint shortest (fuel : nat) (mc ec p : Z) : Z * Z :=
  match fuel with
  | O => ((mc * 5 ^ neg_part ec * 2 ^ pos_part ec)%Z, Z.min ec 0)
  | S fuel' =>
      match digits_at mc ec p with
      | Some s => (s, p)
      | None => shortest fuel' mc ec (p - 1)
      end
  end.

Definition shortest_digits (m : N) (e : Z) : Z * Z :=
  let (mc, ec) := canonical m e in
  let p_hi := ((Z.log2 (4 * mc + 2) + 1 + (ec - 2)) * 30103 / 100000 + 2)%Z in
  let p_lo := Z.min ec 0 in
  shortest (Z.to_nat (p_hi - p_lo)) mc ec p_hi.

(** Steps 6 to 12 of [Number::toString] for radix ten: [digits] are the
    [k] digits of [s] and [n = k + p]. *)
Definition format_digits (digits : string) (n : Z) : string :=
  let k := Z.of_nat (String.length digits) in
  if (-5 <=? n)%Z && (n <=? 21)%Z then
    if (k <=? n)%Z then digits ++ zeros (Z.to_nat (n - k))
    else if (0 <? n)%Z then
      substring 0 (Z.to_nat n) digits ++ "."
      ++ substring (Z.to_nat n) (Z.to_nat (k - n)) digits
    else "0." ++ zeros (Z.to_nat (- n)) ++ digits
  else
    let c := if (0 <=? n - 1)%Z then "+" else "-" in
    let ex := JsString.decimal (Z.to_N (Z.abs (n - 1))) in
    match digits with
    | String d EmptyString => String d EmptyString ++ "e" ++ c ++ ex
    | String d rest => String d EmptyString ++ "." ++ rest ++ "e" ++ c ++ ex
    | EmptyString => EmptyString
    end.

(** [Number::toString(x, 10)], which is also [ToString] of a number. *)
Definition toString (x : t) : string :=
  match x with
  | NaN => "NaN"
  | Infinity false => "Infinity"
  | Infinity true => "-Infinity"
  | Finite negative m e =>
      if (m =? 0)%N then "0"
      else
        let (s, p) := shortest_digits m e in
        let digits := JsString.decimal (Z.to_N s) in
        (if negative then "-" else "")
        ++ format_digits digits (Z.of_nat (String.length digits) + p)
  end.

(** [Number.prototype.toFixed(f)] for [0 <= f <= 100]. *)
Definition toFixed (f : nat) (x : t) : string :=
  match x with
  | Finite negative m e =>
      let s := if negative && negb (m =? 0)%N then "-" else "" in
      if at_least_1e21 m e then toString x
      else s ++ fixed_digits f (fixed_integer f m e)
  | _ => toString x
  end.

End JsNumber.

(** ** JSON values *)

Module Json.

#[local] Unset Elimination Schemes.

(** A value produced by [JSON.parse]; an object lists its own properties,
    each name once, in insertion order. *)
Inductive JsValue : Type :=
| JNull
| JBool (b : bool)
| JNum (x : JsNumber.t)
| JStr (s : string)
| JArr (items : list JsValue)
| JObj (fields : list (string * JsValue)).
#[local] Set Elimination Schemes.

Fixpoint lookup (k : string) (fields : list (string * JsValue)) : option JsValue :=
  match fields with
  | [] => None
  | (k', v) :: rest => if String.eqb k k' then Some v else lookup k rest
  end.

(** [a ?? b], where [None] stands for [undefined]. *)
Definition nullish_or (a : option JsValue) (b : JsValue) : JsValue :=
  match a with
  | None | Some JNull => b
  | Some v => v
  end.

Definition hex_digit (n : nat) : ascii :=
  ascii_of_nat (if (n <? 10)%nat then 48 + n else 87 + n).

(** One code unit inside a JSON string literal ([QuoteJSONString]). *)
Definition quote_unit (c : ascii) : string :=
  let n := nat_of_ascii c in
  if (n =? 8)%nat then "\b"
  else if (n =? 9)%nat then "\t"
  else if (n =? 10)%nat then "\n"
  else if (n =? 12)%nat then "\f"
  else if (n =? 13)%nat then "\r"
  else if (n =? 34)%nat then String "\" (String c EmptyString)
  else if (n =? 92)%nat then "\\"
  else if (n <? 32)%nat then
    "\u00" ++ String (hex_digit (n / 16)) (String (hex_digit (n mod 16)) EmptyString)
  else String c EmptyString.

Fixpoint quote_units (s : string) : string :=
  match s with
  | EmptyString => EmptyString
  | String c s' => quote_unit c ++ quote_units s'
  end.

Definition dquote : string := String "034" EmptyString.

Definition quote (s : string) : string := dquote ++ quote_units s ++ dquote.

Fixpoint join (sep : string) (parts : list string) : string :=
  match parts with
  | [] => EmptyString
  | [x] => x
  | x :: rest => x ++ sep ++ join sep rest
  end.

(** [JSON.stringify] of a JSON value, without indentation. *)
Fixpoint stringify (v : JsValue) : string :=
  match v with
  | JNull => "null"
  | JBool true => "true"
  | JBool false => "false"
  | JNum x =>
      match x with
      | JsNumber.Finite _ _ _ => JsNumber.toString x
      | _ => "null"
      end
  | JStr s => quote s
  | JArr items => "[" ++ join "," (map stringify items) ++ "]"
  | JObj fields =>
      "{" ++ join "," (map (fun kv => quote (fst kv) ++ ":" ++ stringify (snd kv)) fields)
      ++ "}"
  end.

End Json.

(** ** The effects of the handler *)

Module Effects.

(** A thrown value.  Everything the handler can catch is an [Error] object
    ([TypeError] from [fetch] and from body reading, [SyntaxError] from
    JSON parsing, the [Error] the handler builds itself), so a thrown
    value is given by its [message]. *)
Record JsError : Type := Error { message : string }.

(** How an evaluation or an awaited promise completes. *)
Inductive Completion (A : Type) : Type :=
| Normal (a : A)
| Throw (err : JsError).
Arguments Normal {A} a.
Arguments Throw {A} err.

Section Monad.
(** Computations over a mutable store [S] that may throw; what was
    written before a throw stays written. *)
Variable S : Type.

Definition M (A : Type) : Type := S -> Completion A * S.

Definition ret {A} (a : A) : M A := fun s => (Normal a, s).

Definition bind {A B} (c : M A) (k : A -> M B) : M B :=
  fun s =>
    match c s with
    | (Normal a, s') => k a s'
    | (Throw err, s') => (Throw err, s')
    end.

Definition throw {A} (err : JsError) : M A := fun s => (Throw err, s).

(** [await p] for a promise that settles as [p]. *)
Definition await {A} (p : Completion A) : M A := fun s => (p, s).

Definition modify (f : S -> S) : M unit := fun s => (Normal tt, f s).

(** [try { body } catch (err) { handler } finally { finalizer }]. *)
Definition try_catch_finally (body : M unit) (handler : JsError -> M unit)
    (finalizer : M unit) : M unit :=
  fun s =>
    let (r, s1) :=
      match body s with
      | (Normal tt, s') => (Normal tt, s')
      | (Throw err, s') => handler err s'
      end in
    match finalizer s1 with
    | (Normal tt, s2) => (r, s2)
    | (Throw err, s2) => (Throw err, s2)
    end.
End Monad.

Arguments ret {S A} a.
Arguments bind {S A B} c k.
Arguments throw {S A} err.
Arguments await {S A} p.
Arguments modify {S} f.
Arguments try_catch_finally {S} body handler finalizer.

Declare Scope js_scope.
Delimit Scope js_scope with js.
Notation "x <- c ;; k" := (bind c (fun x => k))
  (at level 61, c at next level, right associativity) : js_scope.
Notation "c ;; k" := (bind c (fun _ => k))
  (at level 61, right associativity) : js_scope.

End Effects.

(** ** The component *)

Module App.

Import JsString Json Effects.

(** [type Band]. *)
Record Band : Type := {
  id : JsNumber.t;
  name : string;
  country : option string;
  country_code : option string;
  genre : option string;
  description : option string;
  decade : option string;
  spotify_url : option string;
  sample_url : option string;
  popularity : option JsNumber.t;
  score : option JsNumber.t
}.

(** [ToBoolean] and [ToString] of a value of type [string | undefined]. *)
Definition truthy_opt (v : option string) : bool :=
  match v with
  | Some s => truthy s
  | None => false
  end.

Definition to_string_opt (v : option string) : string :=
  match v with
  | Some s => s
  | None => "undefined"
  end.

Definition getFlagUrl (countryCode : option string) : option string :=
  match countryCode with
  | Some code =>
      if negb (truthy code) then None
      else Some ("https://flagcdn.com/24x18/" ++ toLowerCase code ++ ".png")
  | None => None
  end.

(** The four state slots of [App]; [results] holds whatever
    [setResults] was given, which comes from a body typed [any]. *)
Record State : Type := {
  query : string;
  results : JsValue;
  loading : bool;
  error : option string
}.

(** The [useState] initial values. *)
Definition initial : State :=
  {| query := "Ghost"; results := JArr []; loading := false; error := None |}.

Definition setQuery (v : string) (st : State) : State :=
  {| query := v; results := results st; loading := loading st; error := error st |}.

Definition setResults (v : JsValue) (st : State) : State :=
  {| query := query st; results := v; loading := loading st; error := error st |}.

Definition setLoading (v : bool) (st : State) : State :=
  {| query := query st; results := results st; loading := v; error := error st |}.

Definition setError (v : option string) (st : State) : State :=
  {| query := query st; results := results st; loading := loading st; error := v |}.

(** The arguments of a [fetch] call. *)
Record Request : Type := {
  url : string;
  method : string;
  headers : list (string * string);
  body : string
}.

(** What the handler reads of a [Response]: its status, and what
    [res.text()] and [res.json()] settle to. *)
Record Response : Type := {
  status : N;
  text : Completion string;
  json : Completion JsValue
}.

(** [res.ok]: the status is in the range 200 to 299. *)
Definition ok (res : Response) : bool :=
  ((200 <=? status res) && (status res <=? 299))%N.

(** How the promise returned by [fetch] settles. *)
Definition FetchOutcome : Type := Completion Response.

(** [v.results] for a parsed body [v]: reading a property of [null]
    throws, an object answers with its own property, any other JSON value
    has no property of that name. *)
Definition get_results (v : JsValue) : Completion (option JsValue) :=
  match v with
  | JNull => Throw (Error "Cannot read properties of null (reading 'results')")
  | JObj fields => Normal (lookup "results" fields)
  | _ => Normal None
  end.

(** Where the handler stands when it hands control back: it has returned,
    or it is suspended at [await fetch(...)] with the request sent. *)
Inductive Started : Type :=
| Returned (st : State)
| Awaiting (st : State) (req : Request).

(** [handleSubmit] up to its first [await]. *)
Definition handleSubmit (API_URL : option string) (st : State) : Started :=
  let st := setError None st in
  if negb (truthy_opt API_URL) then
    Returned (setError (Some "VITE_API_URL is not configured.") st)
  else
    let trimmed := trim (query st) in
    if negb (truthy trimmed) then
      Returned (setError (Some "Please type a band name.") st)
    else
      let st := setLoading true st in
      Awaiting st
        {| url := to_string_opt API_URL ++ "/recommendations";
           method := "POST";
           headers := [("Content-Type", "application/json")];
           body := stringify (JObj [("query", JStr trimmed);
                                    ("limit", JNum (JsNumber.of_N 10))]) |}.

Local Open Scope js_scope.

(** [handleSubmit] from the moment [fetch] settles as [o]: the rest of
    the [try] block, the [catch] clause and the [finally] clause.  State
    is written only after the last [await], so the whole runs as one
    step of the event loop. *)
Definition handleSubmit_resume (o : FetchOutcome) : M State unit :=
  try_catch_finally
    (res <- await o ;;
     (if negb (ok res) then
        text <- await (text res) ;;
        throw (Error (or_else text ("HTTP " ++ decimal (status res))))
      else ret tt) ;;
     json <- await (json res) ;;
     r <- await (get_results json) ;;
     modify (setResults (nullish_or r (JArr []))))
    (fun err =>
       modify (setError (Some (or_else (message err) "Unknown error"))) ;;
       modify (setResults (JArr [])))
    (modify (setLoading false)).

(** The state the component is left in once the request has settled. *)
Definition settle (o : FetchOutcome) (st : State) : State :=
  snd (handleSubmit_resume o st).

(** What the [catch] and [finally] clauses leave behind for message [msg]. *)
Definition failed (msg : string) (st : State) : State :=
  setLoading false (setResults (JArr []) (setError (Some msg) st)).

(** *** The event loop

    The component reacts to three kinds of events: the input changes, the
    form is submitted, and a request that is in flight settles. *)
Inductive Event : Type :=
| Change (value : string)
| Submit
| Settle (i : nat) (o : FetchOutcome).

Record Machine : Type := {
  view : State;
  inflight : list Request
}.

Definition mount : Machine := {| view := initial; inflight := [] |}.

Fixpoint remove_nth {A} (i : nat) (l : list A) : list A :=
  match l, i with
  | [], _ => []
  | _ :: rest, O => rest
  | x :: rest, S i' => x :: remove_nth i' rest
  end.

Definition step (API_URL : option string) (m : Machine) (ev : Event)
    : option Machine :=
  match ev with
  | Change v => Some {| view := setQuery v (view m); inflight := inflight m |}
  | Submit =>
      match handleSubmit API_URL (view m) with
      | Returned st => Some {| view := st; inflight := inflight m |}
      | Awaiting st req => Some {| view := st; inflight := inflight m ++ [req] |}
      end
  | Settle i o =>
      match nth_error (inflight m) i with
      | Some _ =>
          Some {| view := settle o (view m); inflight := remove_nth i (inflight m) |}
      | None => None
      end
  end.

Fixpoint run (API_URL : option string) (m : Machine) (evs : list Event)
    : option Machine :=
  match evs with
  | [] => Some m
  | ev :: rest =>
      match step API_URL m ev with
      | Some m' => run API_URL m' rest
      | None => None
      end
  end.

(** *** Rendering *)

(** The error banner: [{error && <div>Error: {error}</div>}]. *)
Definition error_banner (st : State) : option string :=
  if truthy_opt (error st) then Some ("Error: " ++ to_string_opt (error st))
  else None.

(** The [src] of the flag image of a band, when one is rendered:
    [{flagUrl && <img src={flagUrl} ... />}]. *)
Definition flag_image (band : Band) : option string :=
  let flagUrl := getFlagUrl (country_code band) in
  if truthy_opt flagUrl then flagUrl else None.

(** The two children of the caption [div]; [None] is a child that renders
    nothing.  With the declared type of [Band], [typeof] answers
    ["number"] exactly when the field is present. *)
Definition similarity_fragment (band : Band) : option string :=
  match score band with
  | Some x => Some ("similarity: " ++ JsNumber.toFixed 3 x ++ " ")
  | None => None
  end.

Definition popularity_fragment (band : Band) : option string :=
  match popularity band with
  | Some x => Some ("(popularity: " ++ JsNumber.toString x ++ ")")
  | None => None
  end.

Definition caption (band : Band) : string :=
  match similarity_fragment band with Some t => t | None => "" end
  ++ match popularity_fragment band with Some t => t | None => "" end.

End App.

(** ** The notions the specification speaks of *)

Module Contract.

Import JsString Json Effects App.

(** The request of the outbound HTTP contract, in the words of the
    interface description: a POST to [{base}/recommendations] with content
    type JSON and the body [{"query":<trimmed input>,"limit":10}]. *)
Definition recommendations_request (base input : string) : Request :=
  {| url := base ++ "/recommendations";
     method := "POST";
     headers := [("Content-Type", "application/json")];
     body := "{" ++ quote "query" ++ ":" ++ quote (trim input) ++ ","
             ++ quote "limit" ++ ":10}" |}.

(** A submission passes the local checks: the base address is configured
    and the query does not trim to the empty string. *)
Definition passes_checks (API_URL : option string) (st : State) : bool :=
  truthy_opt API_URL && truthy (trim (query st)).

(** For a successful response, one with a 2xx status whose body parses as
    JSON, the [results] field of the body if it has one. *)
Definition response_results (o : FetchOutcome) : option (option JsValue) :=
  match o with
  | Normal res =>
      if ok res then
        match json res with
        | Normal (JObj fields) => Some (lookup "results" fields)
        | Normal _ => Some None
        | Throw _ => None
        end
      else None
  | Throw _ => None
  end.

(** The [results] field of the most recent successful response among the
    events, starting from [acc]. *)
Fixpoint last_successful (acc : option (option JsValue)) (evs : list Event)
    : option (option JsValue) :=
  match evs with
  | [] => acc
  | Settle _ o :: rest =>
      last_successful
        (match response_results o with Some r => Some r | None => acc end) rest
  | _ :: rest => last_successful acc rest
  end.

(** The events are accepted and never leave more than one request in
    flight. *)
Fixpoint one_at_a_time (API_URL : option string) (m : Machine) (evs : list Event)
    : bool :=
  match evs with
  | [] => true
  | ev :: rest =>
      match step API_URL m ev with
      | Some m' => (length (inflight m') <=? 1)%nat && one_at_a_time API_URL m' rest
      | None => false
      end
  end.

Definition is_digit (c : ascii) : bool :=
  let n := nat_of_ascii c in ((48 <=? n) && (n <=? 57))%nat.

Fixpoint all_digits (s : string) : bool :=
  match s with
  | EmptyString => true
  | String c s' => is_digit c && all_digits s'
  end.

(** A decimal numeral with exactly [f] decimal places: an optional minus
    sign, at least one digit, a point, and [f] digits. *)
Definition has_decimal_places (f : nat) (t : string) : Prop :=
  exists sign whole frac,
    t = sign ++ whole ++ "." ++ frac
    /\ (sign = "" \/ sign = "-")
    /\ whole <> "" /\ all_digits whole = true
    /\ all_digits frac = true /\ String.length frac = f.

Fixpoint has_point (s : string) : bool :=
  match s with
  | EmptyString => false
  | String c s' => Ascii.eqb c "." || has_point s'
  end.

(** [s] ends with [suffix]. *)
Fixpoint ends_with (suffix s : string) : bool :=
  String.eqb s suffix
  || match s with
     | EmptyString => false
     | String _ s' => ends_with suffix s'
     end.

(** What can be seen of the loading flag and of the requests in flight
    once the events have run. *)
Definition observe (API_URL : option string) (evs : list Event)
    : option (bool * nat) :=
  option_map (fun m => (loading (view m), length (inflight m)))
    (run API_URL mount evs).

End Contract.

(** ** Sample inputs *)

Module Samples.

Import Json Effects App.

Definition tribulation : JsValue :=
  JObj [("id", JNum (JsNumber.of_N 7)); ("name", JStr "Tribulation");
        ("country_code", JStr "SE")].

(** A 200 response whose body is an object with a [results] array. *)
Definition found : Response :=
  {| status := 200;
     text := Normal (stringify (JObj [("results", JArr [tribulation])]));
     json := Normal (JObj [("results", JArr [tribulation])]) |}.

(** A 200 response whose body is [{"results":null}]. *)
Definition null_results : Response :=
  {| status := 200;
     text := Normal (stringify (JObj [("results", JNull)]));
     json := Normal (JObj [("results", JNull)]) |}.

(** A 429 response with a plain-text body. *)
Definition rate_limited : Response :=
  {| status := 429;
     text := Normal "rate limited";
     json := Throw (Error "Unexpected token 'r'") |}.

(** A 503 response with an empty body. *)
Definition unavailable : Response :=
  {| status := 503;
     text := Normal "";
     json := Throw (Error "Unexpected end of JSON input") |}.

Definition band (code : option string) (pop sc : option JsNumber.t) : Band :=
  {| id := JsNumber.of_N 7; name := "Tribulation"; country := Some "Sweden";
     country_code := code; genre := Some "gothic metal"; description := None;
     decade := None; spotify_url := None; sample_url := None;
     popularity := pop; score := sc |}.

(** The number that the literal [0.12345] denotes. *)
Definition score_0_12345 : JsNumber.t :=
  Eval vm_compute in JsNumber.of_ratio false 12345 100000.

(** The number that the literal [1e21] denotes. *)
Definition score_1e21 : JsNumber.t :=
  Eval vm_compute in JsNumber.of_ratio false (10 ^ 21) 1.

(** Two submissions in a row, then the first request settles. *)
Definition double_submit : list Event :=
  [Submit; Submit; Settle 0 (Normal found)].

(** One submission, an edit while it is in flight, then it settles. *)
Definition single_submit : list Event :=
  [Submit; Change "Ghost B.C."; Settle 0 (Normal found)].

(** A state with results on display and a blank query typed in. *)
Definition blank_after_results : State :=
  {| query := "   "; results := JArr [tribulation]; loading := false; error := None |}.

End Samples.

(** ** The rest of the view *)

Module View.

Import JsString Json Effects App.

(** [{error && (...)}]: the banner is rendered. *)
Definition banner_shown (error : option string) : bool := truthy_opt error.

(** [{!loading && !error && results.length === 0 && (...)}]: the hint is
    rendered.  Only the length of the array is read, so the element type
    is left open. *)
Definition hint_shown {A} (loading : bool) (error : option string)
    (results : list A) : bool :=
  negb loading && negb (truthy_opt error) && (length results =? 0)%nat.

(** [{results.length > 0 && (...)}]: the list is rendered. *)
Definition list_shown {A} (results : list A) : bool :=
  (0 <? length results)%nat.

(** The attributes of the flag [<img>]. *)
Record Img : Type := {
  src : string;
  alt : string;
  width : nat;
  height : nat
}.

(** [{flagUrl && (<img src={flagUrl} alt={...} width={24} height={18} />)}]
    with [flagUrl = getFlagUrl(band.country_code)]. *)
Definition flag_img (band : Band) : option Img :=
  let flagUrl := getFlagUrl (country_code band) in
  if truthy_opt flagUrl then
    Some {| src := to_string_opt flagUrl;
            alt := if truthy_opt (country band)
                   then to_string_opt (country band) ++ " flag"
                   else "Country flag";
            width := 24;
            height := 18 |}
  else None.

End View.

(** ** Outcomes of a request *)

Module Outcomes.

Import JsString Json Effects App Contract.

(** The message the [catch] clause stores for a thrown value. *)
Definition caught (err : JsError) : string := or_else (message err) "Unknown error".

(** The message that ends up in the error slot when the request settles
    as [o], if the [try] block throws: [fetch] rejects, the status is
    outside 2xx, the body cannot be read or parsed, or the parsed body is
    [null]. *)
Definition failure_message (o : FetchOutcome) : option string :=
  match o with
  | Throw err => Some (caught err)
  | Normal res =>
      if ok res then
        match json res with
        | Throw err => Some (caught err)
        | Normal JNull =>
            Some "Cannot read properties of null (reading 'results')"
        | Normal _ => None
        end
      else
        match text res with
        | Throw err => Some (caught err)
        | Normal t => Some (or_else t ("HTTP " ++ decimal (status res)))
        end
  end.

(** The value [setResults] receives when the [try] block completes. *)
Definition success_value (o : FetchOutcome) : JsValue :=
  match response_results o with
  | Some r => nullish_or r (JArr [])
  | None => JArr []
  end.

(** The outcome honours the contract of the service as far as the
    handler can tell: if it is a successful response whose body has a
    [results] field, that field is an array or [null]. *)
Definition contract_shaped (o : FetchOutcome) : bool :=
  match response_results o with
  | Some (Some (JArr _)) | Some (Some JNull) | Some None | None => true
  | Some (Some _) => false
  end.

Fixpoint all_shaped (evs : list Event) : bool :=
  match evs with
  | [] => true
  | Settle _ o :: rest => contract_shaped o && all_shaped rest
  | _ :: rest => all_shaped rest
  end.

(** One submission handled from start to end with nothing in between:
    [handleSubmit], and, if it sent a request, the settlement [o]. *)
Definition lone_submission (API_URL : option string) (o : FetchOutcome)
    (st : State) : State :=
  match handleSubmit API_URL st with
  | Returned st' => st'
  | Awaiting st' _ => settle o st'
  end.

End Outcomes.

(** ** Reading a JSON string literal back *)

Module Reader.

Import JsString Json.

Definition hex_value (c : ascii) : option nat :=
  let n := nat_of_ascii c in
  if ((48 <=? n) && (n <=? 57))%nat then Some (n - 48)%nat
  else if ((97 <=? n) && (n <=? 102))%nat then Some (n - 87)%nat
  else if ((65 <=? n) && (n <=? 70))%nat then Some (n - 55)%nat
  else None.

(** The code unit that the escape [\e] stands for, [u] apart. *)
Definition unescape (e : ascii) : option ascii :=
  let n := nat_of_ascii e in
  if (n =? 98)%nat then Some (ascii_of_nat 8)
  else if (n =? 116)%nat then Some (ascii_of_nat 9)
  else if (n =? 110)%nat then Some (ascii_of_nat 10)
  else if (n =? 102)%nat then Some (ascii_of_nat 12)
  else if (n =? 114)%nat then Some (ascii_of_nat 13)
  else if (n =? 34)%nat || (n =? 92)%nat || (n =? 47)%nat then Some e
  else None.

Definition push (c : ascii) (r : option (string * string)) : option (string * string) :=
  match r with
  | Some (s, rest) => Some (String c s, rest)
  | None => None
  end.

(** Reads the inside of a JSON string literal up to its closing quote and
    answers with the string it denotes and the text after the quote.
    Code units from U+0100 on cannot be denoted here and are refused, as
    are raw control characters. *)
Fixpoint read_units (s : string) : option (string * string) :=
  match s with
  | EmptyString => None
  | String c rest =>
      let n := nat_of_ascii c in
      if (n =? 34)%nat then Some (EmptyString, rest)
      else if (n =? 92)%nat then
        match rest with
        | EmptyString => None
        | String e rest1 =>
            if (nat_of_ascii e =? 117)%nat then
              match rest1 with
              | String h1 (String h2 (String h3 (String h4 rest2))) =>
                  match hex_value h1, hex_value h2, hex_value h3, hex_value h4 with
                  | Some 0%nat, Some 0%nat, Some a, Some b =>
                      push (ascii_of_nat (16 * a + b)) (read_units rest2)
                  | _, _, _, _ => None
                  end
              | _ => None
              end
            else
              match unescape e with
              | Some c' => push c' (read_units rest1)
              | None => None
              end
        end
      else if (n <? 32)%nat then None
      else push c (read_units rest)
  end.

End Reader.

(** ** Reading a numeral *)

Module Numerals.

(** The number that a string of decimal digits denotes, most significant
    digit first, continuing from [acc]. *)
Fixpoint digits_value_from (acc : N) (s : string) : N :=
  match s with
  | EmptyString => acc
  | String c s' => digits_value_from (10 * acc + (N_of_ascii c - 48)) s'
  end.

Definition digits_value (s : string) : N := digits_value_from 0 s.

(** [n] is the integer nearest to [10^f * m * 2^e], the larger one when
    two are equally near: [n - 1/2 <= 10^f * m * 2^e < n + 1/2]. *)
Definition nearest_scaled (f : nat) (m : N) (e : Z) (n : N) : Prop :=
  ((2 * Z.of_N n - 1) * 2 ^ JsNumber.neg_part e
   <= 2 * 10 ^ Z.of_nat f * (Z.of_N m * 2 ^ JsNumber.pos_part e)
   < (2 * Z.of_N n + 1) * 2 ^ JsNumber.neg_part e)%Z.

End Numerals.

(** * Properties *)

Import JsString Json Effects App Contract.

(** ** Strings *)

Lemma trimEnd_empty_iff (s : string) :
  trimEnd s = EmptyString <-> whitespace_only s = true.
Proof.
  induction s as [|c s IH]; simpl.
  - tauto.
  - destruct (trimEnd s) eqn:E.
    + destruct (is_white_space c); simpl.
      * split; intros _; [apply IH|]; reflexivity.
      * split; discriminate.
    + split; [discriminate|].
      intros H. apply andb_true_iff in H. destruct H as [_ H].
      apply IH in H. discriminate.
Qed.

Lemma trimStart_whitespace_only (s : string) :
  whitespace_only (trimStart s) = whitespace_only s.
Proof.
  induction s as [|c s IH]; simpl; [reflexivity|].
  destruct (is_white_space c) eqn:E; simpl; [assumption|].
  rewrite E. reflexivity.
Qed.

(** A string trims to the empty string exactly when it is empty or made of
    white space only. *)
Lemma trim_empty_iff (s : string) :
  trim s = EmptyString <-> whitespace_only s = true.
Proof.
  unfold trim. rewrite trimEnd_empty_iff, trimStart_whitespace_only. tauto.
Qed.

Lemma truthy_false_iff (s : string) : truthy s = false <-> s = EmptyString.
Proof. destruct s; simpl; split; congruence. Qed.

Lemma append_assoc (a b c : string) : (a ++ b) ++ c = a ++ (b ++ c).
Proof. induction a as [|x a IH]; simpl; [reflexivity|]. rewrite IH. reflexivity. Qed.

Lemma append_empty_r (a : string) : a ++ "" = a.
Proof. induction a as [|x a IH]; simpl; [reflexivity|]. rewrite IH. reflexivity. Qed.

Lemma append_length (a b : string) :
  String.length (a ++ b) = (String.length a + String.length b)%nat.
Proof. induction a as [|x a IH]; simpl; [reflexivity|]. rewrite IH. reflexivity. Qed.

Lemma truthy_true_iff (s : string) : truthy s = true <-> s <> EmptyString.
Proof. destruct s; simpl; split; congruence. Qed.

Lemma or_else_truthy (a b : string) : truthy b = true -> truthy (or_else a b) = true.
Proof. unfold or_else. destruct (truthy a) eqn:E; auto. Qed.

Lemma or_else_idem (a b : string) :
  truthy b = true -> or_else (or_else a b) "Unknown error" = or_else a b.
Proof.
  intros H. unfold or_else at 1. rewrite (or_else_truthy a b H). reflexivity.
Qed.

(** ** Numbers *)

(** The sample score is the binary64 value nearest to 0.12345: its
    mantissa has 53 bits and it is within half a unit in the last place
    of 12345/100000. *)
Example score_0_12345_nearest :
  Samples.score_0_12345 = JsNumber.Finite false 8895509983982204 (-56)
  /\ (2 ^ 52 <= 8895509983982204 < 2 ^ 53)%Z
  /\ (2 * Z.abs (8895509983982204 * 100000 - 12345 * 2 ^ 56) < 100000)%Z.
Proof. split; [reflexivity|]. split; vm_compute; intuition discriminate. Qed.

(** The other sample score is 10^21 exactly. *)
Example score_1e21_exact :
  Samples.score_1e21 = JsNumber.Finite false 7629394531250000 17
  /\ (7629394531250000 * 2 ^ 17 = 10 ^ 21)%Z
  /\ JsNumber.is_double Samples.score_1e21 = true.
Proof. vm_compute. repeat split. Qed.

(** [toString] and [toFixed] on some values whose printed form is well
    known. *)
Example printed_numbers :
  JsNumber.toString Samples.score_0_12345 = "0.12345"
  /\ JsNumber.toString (JsNumber.of_ratio false 1 3) = "0.3333333333333333"
  /\ JsNumber.toString (JsNumber.of_ratio false (2 ^ 64) 1) = "18446744073709552000"
  /\ JsNumber.toString (JsNumber.of_ratio false 1 (10 ^ 7)) = "1e-7"
  /\ JsNumber.toString (JsNumber.of_ratio true 5 (10 ^ 324)) = "-5e-324"
  /\ JsNumber.toString (JsNumber.of_ratio false (10 ^ 23) 1) = "1e+23"
  /\ JsNumber.toString (JsNumber.of_ratio false (10 ^ 999) 1) = "Infinity".
Proof. vm_compute. repeat split. Qed.

Example fixed_numbers :
  JsNumber.toFixed 3 Samples.score_0_12345 = "0.123"
  /\ JsNumber.toFixed 2 (JsNumber.of_ratio false 1005 1000) = "1.00"
  /\ JsNumber.toFixed 0 (JsNumber.of_ratio false 25 10) = "3"
  /\ JsNumber.toFixed 3 (JsNumber.of_ratio true 1 10000) = "-0.000"
  /\ JsNumber.toFixed 3 (JsNumber.of_ratio false 1 1) = "1.000"
  /\ JsNumber.toFixed 3 Samples.score_1e21 = "1e+21"
  /\ JsNumber.toFixed 3 (JsNumber.Infinity false) = "Infinity".
Proof. vm_compute. repeat split. Qed.

(** ** The handler, case by case *)

Lemma settle_rejected (err : JsError) (st : State) :
  settle (Throw err) st = failed (or_else (message err) "Unknown error") st.
Proof. reflexivity. Qed.

Lemma settle_not_ok (res : Response) (t : string) (st : State) :
  ok res = false -> text res = Normal t ->
  settle (Normal res) st = failed (or_else t ("HTTP " ++ decimal (status res))) st.
Proof.
  intros Hok Ht. unfold settle, handleSubmit_resume, try_catch_finally, bind, await.
  rewrite Hok, Ht. cbn.
  rewrite or_else_idem by reflexivity. reflexivity.
Qed.

Lemma settle_not_ok_unread (res : Response) (err : JsError) (st : State) :
  ok res = false -> text res = Throw err ->
  settle (Normal res) st = failed (or_else (message err) "Unknown error") st.
Proof.
  intros Hok Ht. unfold settle, handleSubmit_resume, try_catch_finally, bind, await.
  rewrite Hok, Ht. reflexivity.
Qed.

Lemma settle_unparsed (res : Response) (err : JsError) (st : State) :
  ok res = true -> json res = Throw err ->
  settle (Normal res) st = failed (or_else (message err) "Unknown error") st.
Proof.
  intros Hok Hj. unfold settle, handleSubmit_resume, try_catch_finally, bind, await.
  rewrite Hok, Hj. reflexivity.
Qed.

Lemma settle_parsed (res : Response) (j : JsValue) (st : State) :
  ok res = true -> json res = Normal j ->
  settle (Normal res) st =
  match get_results j with
  | Normal r => setLoading false (setResults (nullish_or r (JArr [])) st)
  | Throw err => failed (or_else (message err) "Unknown error") st
  end.
Proof.
  intros Hok Hj. unfold settle, handleSubmit_resume, try_catch_finally, bind, await.
  rewrite Hok, Hj. cbn. destruct (get_results j); reflexivity.
Qed.

(** Every outcome is one of the five cases above. *)
Lemma settle_cases (o : FetchOutcome) (st : State) :
  (exists msg, settle o st = failed msg st)
  \/ (exists v, settle o st = setLoading false (setResults v st)).
Proof.
  destruct o as [res|err].
  - destruct (ok res) eqn:Hok.
    + destruct (json res) as [j|err] eqn:Hj.
      * rewrite (settle_parsed res j st Hok Hj).
        destruct (get_results j); [right|left]; eauto.
      * left. rewrite (settle_unparsed res err st Hok Hj). eauto.
    + destruct (text res) as [t|err] eqn:Ht.
      * left. rewrite (settle_not_ok res t st Hok Ht). eauto.
      * left. rewrite (settle_not_ok_unread res err st Hok Ht). eauto.
  - left. rewrite settle_rejected. eauto.
Qed.

(** The handler never lets an exception escape: the promise it returns is
    always fulfilled. *)
Lemma handleSubmit_resume_fulfils (o : FetchOutcome) (st : State) :
  fst (handleSubmit_resume o st) = Normal tt.
Proof.
  unfold handleSubmit_resume, try_catch_finally, bind, await.
  destruct o as [res|err]; cbn; [|reflexivity].
  destruct (ok res); cbn.
  - destruct (json res) as [j|err]; cbn; [|reflexivity].
    destruct (get_results j); reflexivity.
  - destruct (text res); reflexivity.
Qed.

Lemma handleSubmit_unconfigured (API_URL : option string) (st : State) :
  truthy_opt API_URL = false ->
  handleSubmit API_URL st =
  Returned (setError (Some "VITE_API_URL is not configured.") (setError None st)).
Proof. intros H. unfold handleSubmit. rewrite H. reflexivity. Qed.

Lemma handleSubmit_blank (API_URL : option string) (st : State) :
  truthy_opt API_URL = true -> trim (query st) = EmptyString ->
  handleSubmit API_URL st =
  Returned (setError (Some "Please type a band name.") (setError None st)).
Proof.
  intros H1 H2. unfold handleSubmit. rewrite H1.
  change (query (setError None st)) with (query st). rewrite H2. reflexivity.
Qed.

(** ** The local checks *)

Lemma local_failure_returns (API_URL : option string) (st : State) :
  truthy_opt API_URL = false \/ trim (query st) = "" ->
  exists st', handleSubmit API_URL st = Returned st'
    /\ (truthy_opt API_URL = true -> error st' = Some "Please type a band name.").
Proof.
  intros H. destruct (truthy_opt API_URL) eqn:E.
  - destruct H as [H|H]; [discriminate|].
    rewrite (handleSubmit_blank API_URL st E H). eexists. split; reflexivity.
  - rewrite (handleSubmit_unconfigured API_URL st E).
    eexists. split; [reflexivity|discriminate].
Qed.

(** Claim C4.  While the API base address is not set, every submission
    returns without issuing a network request and leaves the error set to
    the configuration message, whatever the query text is. *)
Theorem C4_unconfigured_fails_fast (st : State) (m : Machine) :
  (exists st', handleSubmit None st = Returned st'
     /\ error st' = Some "VITE_API_URL is not configured.")
  /\ (exists m', step None m Submit = Some m'
        /\ inflight m' = inflight m
        /\ error (view m') = Some "VITE_API_URL is not configured.").
Proof.
  split.
  - eexists. split; [apply handleSubmit_unconfigured|]; reflexivity.
  - unfold step. rewrite handleSubmit_unconfigured by reflexivity.
    eexists. repeat split.
Qed.

(** An address set to the empty string counts as not set. *)
Lemma handleSubmit_empty_address (st : State) :
  handleSubmit (Some "") st = handleSubmit None st.
Proof. reflexivity. Qed.

(** Claim C10.  A submission that fails locally, because the base address
    is missing or because the query trims to nothing, leaves the result
    list, the loading flag and the query as they were and only writes the
    error; the configuration check comes first, so with the address
    missing the error is the configuration message even for a blank
    query. *)
Theorem C10_local_failure_frame (API_URL : option string) (st : State) :
  truthy_opt API_URL = false \/ trim (query st) = "" ->
  exists st', handleSubmit API_URL st = Returned st'
    /\ results st' = results st
    /\ loading st' = loading st
    /\ query st' = query st
    /\ (truthy_opt API_URL = false ->
        error st' = Some "VITE_API_URL is not configured.")
    /\ (truthy_opt API_URL = true ->
        error st' = Some "Please type a band name.").
Proof.
  intros H. destruct (truthy_opt API_URL) eqn:E.
  - destruct H as [H|H]; [discriminate|].
    rewrite (handleSubmit_blank API_URL st E H).
    eexists. repeat split. discriminate.
  - rewrite (handleSubmit_unconfigured API_URL st E).
    eexists. repeat split. discriminate.
Qed.

Lemma C10_local_failure_frame_witness :
  exists st', handleSubmit None Samples.blank_after_results = Returned st'
    /\ results st' = results Samples.blank_after_results
    /\ loading st' = loading Samples.blank_after_results
    /\ query st' = query Samples.blank_after_results
    /\ (truthy_opt None = false ->
        error st' = Some "VITE_API_URL is not configured.")
    /\ (truthy_opt None = true ->
        error st' = Some "Please type a band name.").
Proof.
  apply (C10_local_failure_frame None Samples.blank_after_results).
  right. reflexivity.
Defined.

(** Claim C3, as stated, fails: with the base address missing, a blank
    query yields the configuration message, not the validation message. *)
Lemma C3_counterexample :
  trim (query Samples.blank_after_results) = ""
  /\ handleSubmit None Samples.blank_after_results =
     Returned (setError (Some "VITE_API_URL is not configured.")
                 Samples.blank_after_results)
  /\ error (setError (Some "VITE_API_URL is not configured.")
              Samples.blank_after_results)
     <> Some "Please type a band name.".
Proof. repeat split. discriminate. Qed.

(** Claim C3, amended.  A submission whose query trims to the empty
    string never issues a network request; when the base address is
    configured, it leaves the error set to the validation message. *)
Theorem C3_blank_query_rejected (API_URL : option string) (m : Machine) :
  trim (query (view m)) = "" ->
  (exists st', handleSubmit API_URL (view m) = Returned st'
     /\ (truthy_opt API_URL = true -> error st' = Some "Please type a band name."))
  /\ (exists m', step API_URL m Submit = Some m' /\ inflight m' = inflight m).
Proof.
  intros H.
  destruct (local_failure_returns API_URL (view m) (or_intror H))
    as (st' & Hs & Herr).
  split.
  - exists st'. split; assumption.
  - unfold step. rewrite Hs. eexists. split; reflexivity.
Qed.

Lemma C3_blank_query_rejected_witness :
  (exists st', handleSubmit (Some "https://api.example") (view {| view := Samples.blank_after_results; inflight := [] |}) = Returned st'
     /\ (truthy_opt (Some "https://api.example") = true ->
         error st' = Some "Please type a band name."))
  /\ (exists m', step (Some "https://api.example")
                   {| view := Samples.blank_after_results; inflight := [] |} Submit = Some m'
        /\ inflight m' = inflight {| view := Samples.blank_after_results; inflight := [] |}).
Proof.
  apply (C3_blank_query_rejected (Some "https://api.example")
           {| view := Samples.blank_after_results; inflight := [] |}).
  reflexivity.
Defined.

(** ** Settling a request *)

(** Claim C2.  When the response has a status outside 200-299, the
    result list is emptied; with body text [t], the error becomes [t] if
    [t] is not empty and ["HTTP <status>"] if it is, and the banner shows
    it after ["Error: "]. *)
Theorem C2_http_error_reported (res : Response) (st : State) :
  ok res = false ->
  results (settle (Normal res) st) = JArr []
  /\ forall t,
      text res = Normal t ->
      error (settle (Normal res) st)
      = Some (if truthy t then t else "HTTP " ++ decimal (status res))
      /\ error_banner (settle (Normal res) st)
         = Some ("Error: " ++ (if truthy t then t else "HTTP " ++ decimal (status res))).
Proof.
  intros Hok. split.
  - destruct (text res) as [t|err] eqn:Ht.
    + rewrite (settle_not_ok res t st Hok Ht). reflexivity.
    + rewrite (settle_not_ok_unread res err st Hok Ht). reflexivity.
  - intros t Ht. rewrite (settle_not_ok res t st Hok Ht).
    unfold error_banner, or_else. cbn.
    destruct (truthy t) eqn:E; cbn; rewrite ?E; split; reflexivity.
Qed.

Lemma C2_http_error_reported_witness :
  error (settle (Normal Samples.rate_limited) initial) = Some "rate limited"
  /\ error_banner (settle (Normal Samples.rate_limited) initial)
     = Some "Error: rate limited".
Proof.
  apply (proj2 (C2_http_error_reported Samples.rate_limited initial eq_refl)
           "rate limited").
  reflexivity.
Defined.

(** An empty body on a 503 response shows as ["Error: HTTP 503"]. *)
Example empty_body_names_the_status :
  error_banner (settle (Normal Samples.unavailable) Samples.blank_after_results)
  = Some "Error: HTTP 503".
Proof. reflexivity. Qed.

(** Claim C1, as stated, fails: for the body [{"results":null}] the body
    has a [results] field, and the result list becomes the empty list
    rather than that field. *)
Lemma C1_counterexample :
  ok Samples.null_results = true
  /\ json Samples.null_results = Normal (JObj [("results", JNull)])
  /\ lookup "results" [("results", JNull)] = Some JNull
  /\ results (settle (Normal Samples.null_results) initial) = JArr []
  /\ results (settle (Normal Samples.null_results) initial) <> JNull.
Proof. repeat split. discriminate. Qed.

(** Claim C1, amended.  When the response has a 2xx status and its body
    parses as JSON, the result list is replaced by the body's [results]
    field if the body is an object that has one other than [null]; it
    becomes the empty list if the body has no [results] field, or has
    [null] there. *)
Theorem C1_success_replaces_results (res : Response) (j : JsValue) (st : State) :
  ok res = true -> json res = Normal j ->
  (forall fields v,
      j = JObj fields -> lookup "results" fields = Some v -> v <> JNull ->
      results (settle (Normal res) st) = v)
  /\ (forall fields,
        j = JObj fields ->
        lookup "results" fields = None \/ lookup "results" fields = Some JNull ->
        results (settle (Normal res) st) = JArr [])
  /\ ((forall fields, j <> JObj fields) ->
      results (settle (Normal res) st) = JArr []).
Proof.
  intros Hok Hj. rewrite (settle_parsed res j st Hok Hj).
  split; [|split].
  - intros fields v -> Hl Hv. cbn. rewrite Hl.
    destruct v; try reflexivity. contradiction.
  - intros fields -> [Hl|Hl]; cbn; rewrite Hl; reflexivity.
  - intros Hno. destruct j; try reflexivity.
    exfalso. eapply Hno. reflexivity.
Qed.

Lemma C1_success_replaces_results_witness :
  results (settle (Normal Samples.found) Samples.blank_after_results)
  = JArr [Samples.tribulation].
Proof.
  apply (proj1 (C1_success_replaces_results Samples.found
                  (JObj [("results", JArr [Samples.tribulation])])
                  Samples.blank_after_results eq_refl eq_refl)
           [("results", JArr [Samples.tribulation])]
           (JArr [Samples.tribulation]) eq_refl eq_refl).
  discriminate.
Defined.

(** ** The request *)

Lemma ten_prints : JsNumber.toString (JsNumber.of_N 10) = "10".
Proof. vm_compute. reflexivity. Qed.

Lemma body_text (trimmed : string) :
  stringify (JObj [("query", JStr trimmed); ("limit", JNum (JsNumber.of_N 10))])
  = "{" ++ quote "query" ++ ":" ++ quote trimmed ++ "," ++ quote "limit" ++ ":10}".
Proof.
  cbn [stringify map join fst snd].
  rewrite ten_prints, !append_assoc. reflexivity.
Qed.

Lemma handleSubmit_dispatches (API_URL : option string) (st : State) :
  passes_checks API_URL st = true ->
  handleSubmit API_URL st
  = Awaiting (setLoading true (setError None st))
      (recommendations_request (to_string_opt API_URL) (query st)).
Proof.
  unfold passes_checks. intros H. apply andb_true_iff in H. destruct H as [H1 H2].
  unfold handleSubmit. rewrite H1.
  change (query (setError None st)) with (query st). rewrite H2.
  cbn [negb]. rewrite body_text. reflexivity.
Qed.

Lemma handleSubmit_returns (API_URL : option string) (st : State) :
  passes_checks API_URL st = false ->
  exists msg, handleSubmit API_URL st = Returned (setError (Some msg) (setError None st)).
Proof.
  unfold passes_checks. intros H. apply andb_false_iff in H.
  destruct (truthy_opt API_URL) eqn:E.
  - destruct H as [H|H]; [discriminate|].
    apply truthy_false_iff in H.
    rewrite (handleSubmit_blank API_URL st E H). eauto.
  - rewrite (handleSubmit_unconfigured API_URL st E). eauto.
Qed.

Lemma passes_checks_configured (API_URL : option string) (st : State) :
  passes_checks API_URL st = true ->
  exists base, API_URL = Some base /\ truthy base = true
               /\ trim (query st) <> "".
Proof.
  unfold passes_checks. intros H. apply andb_true_iff in H. destruct H as [H1 H2].
  destruct API_URL as [base|]; [|discriminate].
  exists base. repeat split; trivial. apply truthy_true_iff. exact H2.
Qed.

(** Claim C7.  A submission issues a request exactly when it passes the
    local checks, and then it issues one request: a POST to
    [{base}/recommendations] with content type JSON whose body is the JSON
    text of the trimmed query and the limit 10.  In the event loop the
    request joins the requests in flight, and a submission that fails the
    checks adds none. *)
Theorem C7_one_post_per_submission (API_URL : option string) (m : Machine) :
  (if passes_checks API_URL (view m)
   then exists base st',
       API_URL = Some base
       /\ handleSubmit API_URL (view m)
          = Awaiting st' (recommendations_request base (query (view m)))
       /\ step API_URL m Submit
          = Some {| view := st';
                    inflight := inflight m
                                ++ [recommendations_request base (query (view m))] |}
   else exists st',
       handleSubmit API_URL (view m) = Returned st'
       /\ step API_URL m Submit = Some {| view := st'; inflight := inflight m |}).
Proof.
  unfold step. destruct (passes_checks API_URL (view m)) eqn:E.
  - destruct (passes_checks_configured API_URL (view m) E) as (base & -> & _).
    rewrite (handleSubmit_dispatches (Some base) (view m) E).
    eexists. eexists. repeat split.
  - destruct (handleSubmit_returns API_URL (view m) E) as [msg ->].
    eexists. split; reflexivity.
Qed.

(** Only a submission adds a request: an edit leaves the requests in
    flight alone and a settlement takes one away. *)
Lemma other_events_issue_nothing (API_URL : option string) (m m' : Machine) (ev : Event) :
  ev <> Submit -> step API_URL m ev = Some m' ->
  (length (inflight m') <= length (inflight m))%nat.
Proof.
  destruct ev as [v| |i o]; intros Hev Hstep; [|contradiction|].
  - injection Hstep as <-. cbn. lia.
  - cbn in Hstep. destruct (nth_error (inflight m) i) eqn:E; [|discriminate].
    injection Hstep as <-. cbn. clear E Hev.
    revert i. induction (inflight m) as [|x l IH]; intros [|i]; cbn; auto.
    specialize (IH i). lia.
Qed.

(** The request for the default query ["Ghost"]. *)
Example ghost_request :
  handleSubmit (Some "https://api.example") initial
  = Awaiting (setLoading true initial)
      {| url := "https://api.example/recommendations";
         method := "POST";
         headers := [("Content-Type", "application/json")];
         body := "{" ++ dquote ++ "query" ++ dquote ++ ":" ++ dquote ++ "Ghost" ++ dquote
                 ++ "," ++ dquote ++ "limit" ++ dquote ++ ":10}" |}.
Proof. vm_compute. reflexivity. Qed.

(** ** The loading flag *)

Lemma settle_clears_loading (o : FetchOutcome) (st : State) :
  loading (settle o st) = false.
Proof.
  destruct (settle_cases o st) as [[msg ->]|[v ->]]; reflexivity.
Qed.

Lemma handleSubmit_started (API_URL : option string) (st : State) :
  (exists msg, handleSubmit API_URL st = Returned (setError (Some msg) (setError None st)))
  \/ (exists req, handleSubmit API_URL st = Awaiting (setLoading true (setError None st)) req).
Proof.
  destruct (passes_checks API_URL st) eqn:E.
  - right. rewrite (handleSubmit_dispatches API_URL st E). eauto.
  - left. apply handleSubmit_returns. assumption.
Qed.

Lemma dispatch_sets_loading (API_URL : option string) (st st' : State) (req : Request) :
  handleSubmit API_URL st = Awaiting st' req -> loading st' = true.
Proof.
  destruct (handleSubmit_started API_URL st) as [[msg ->]|[req' ->]]; [discriminate|].
  intros H. injection H as <- _. reflexivity.
Qed.

Lemma remove_nth_length {A} (i : nat) (l : list A) (x : A) :
  nth_error l i = Some x -> S (length (remove_nth i l)) = length l.
Proof.
  revert i. induction l as [|y l IH]; intros [|i]; cbn; try discriminate.
  - reflexivity.
  - intros H. rewrite (IH i H). reflexivity.
Qed.

(** While the flag is up, some request is in flight: one step. *)
Lemma loading_implies_inflight_step (API_URL : option string) (m m' : Machine) (ev : Event) :
  (loading (view m) = true -> inflight m <> []) ->
  step API_URL m ev = Some m' ->
  loading (view m') = true -> inflight m' <> [].
Proof.
  intros Inv Hstep. destruct ev as [v| |i o]; cbn in Hstep.
  - injection Hstep as <-. exact Inv.
  - destruct (handleSubmit_started API_URL (view m)) as [[msg E]|[req E]];
      rewrite E in Hstep; injection Hstep as <-; cbn.
    + exact Inv.
    + intros _ H. apply app_eq_nil in H. destruct H as [_ H]. discriminate.
  - destruct (nth_error (inflight m) i); [|discriminate].
    injection Hstep as <-. cbn. rewrite settle_clears_loading. discriminate.
Qed.

Lemma loading_implies_inflight_run (API_URL : option string) (evs : list Event) :
  forall m m',
    (loading (view m) = true -> inflight m <> []) ->
    run API_URL m evs = Some m' ->
    loading (view m') = true -> inflight m' <> [].
Proof.
  induction evs as [|ev evs IH]; intros m m' Inv Hrun; cbn in Hrun.
  - injection Hrun as <-. exact Inv.
  - destruct (step API_URL m ev) as [m1|] eqn:E; [|discriminate].
    apply (IH m1 m' (loading_implies_inflight_step API_URL m m1 ev Inv E) Hrun).
Qed.

(** With at most one request in flight, the flag is up exactly while that
    request is in flight: one step. *)
Lemma loading_tracks_step (API_URL : option string) (m m' : Machine) (ev : Event) :
  (length (inflight m) <= 1)%nat ->
  (loading (view m) = true <-> inflight m <> []) ->
  step API_URL m ev = Some m' ->
  (length (inflight m') <= 1)%nat ->
  (loading (view m') = true <-> inflight m' <> []).
Proof.
  intros Hlen Inv Hstep Hlen'. destruct ev as [v| |i o]; cbn in Hstep.
  - injection Hstep as <-. exact Inv.
  - destruct (handleSubmit_started API_URL (view m)) as [[msg E]|[req E]];
      rewrite E in Hstep; injection Hstep as <-; cbn.
    + exact Inv.
    + split; [|reflexivity].
      intros _ H. apply app_eq_nil in H. destruct H as [_ H]. discriminate.
  - destruct (nth_error (inflight m) i) as [req|] eqn:E; [|discriminate].
    injection Hstep as <-. cbn. rewrite settle_clears_loading.
    pose proof (remove_nth_length i (inflight m) req E) as Hl.
    destruct (remove_nth i (inflight m)) as [|x l] eqn:R.
    + split; [discriminate|]. intros H. contradiction H. reflexivity.
    + cbn in Hl. lia.
Qed.

Lemma loading_tracks_run (API_URL : option string) (evs : list Event) :
  forall m m',
    (length (inflight m) <= 1)%nat ->
    (loading (view m) = true <-> inflight m <> []) ->
    one_at_a_time API_URL m evs = true ->
    run API_URL m evs = Some m' ->
    (loading (view m') = true <-> inflight m' <> []).
Proof.
  induction evs as [|ev evs IH]; intros m m' Hlen Inv Hone Hrun;
    cbn in Hrun, Hone.
  - injection Hrun as <-. exact Inv.
  - destruct (step API_URL m ev) as [m1|] eqn:E; [|discriminate].
    apply andb_true_iff in Hone. destruct Hone as [H1 Hone].
    apply Nat.leb_le in H1.
    apply (IH m1 m' H1 (loading_tracks_step API_URL m m1 ev Hlen Inv E H1) Hone Hrun).
Qed.

(** Claim C5, as stated, fails: after two submissions in a row the first
    settlement clears the flag while the second request is still in
    flight. *)
Lemma C5_counterexample :
  observe (Some "https://api.example") Samples.double_submit = Some (false, 1%nat).
Proof. vm_compute. reflexivity. Qed.

(** Claim C5, amended.  A submission that dispatches a request sets the
    loading flag, and the settlement of a request clears it whatever the
    outcome is: success, a status outside 2xx, a network failure or a
    parse failure.  The flag is never up without a request in flight, and
    as long as no second request is dispatched while one is in flight it
    is up exactly while the request is in flight. *)
Theorem C5_loading_tracks_request (API_URL : option string) :
  (forall st st' req, handleSubmit API_URL st = Awaiting st' req -> loading st' = true)
  /\ (forall o st, loading (settle o st) = false)
  /\ (forall evs m,
        run API_URL mount evs = Some m ->
        loading (view m) = true -> inflight m <> [])
  /\ (forall evs m,
        one_at_a_time API_URL mount evs = true ->
        run API_URL mount evs = Some m ->
        (loading (view m) = true <-> inflight m <> [])).
Proof.
  split; [|split; [|split]].
  - apply dispatch_sets_loading.
  - apply settle_clears_loading.
  - intros evs m. apply loading_implies_inflight_run. discriminate.
  - intros evs m. apply loading_tracks_run.
    + cbn. lia.
    + cbn. split; [discriminate|]. intros H. contradiction H. reflexivity.
Qed.

Lemma C5_loading_tracks_request_witness :
  loading (setLoading true (setQuery "Ghost B.C." initial)) = true
  <-> [recommendations_request "https://api.example" "Ghost"] <> [].
Proof.
  apply (proj2 (proj2 (proj2 (C5_loading_tracks_request (Some "https://api.example"))))
           [Submit; Change "Ghost B.C."]
           {| view := setLoading true (setQuery "Ghost B.C." initial);
              inflight := [recommendations_request "https://api.example" "Ghost"] |}).
  - vm_compute. reflexivity.
  - vm_compute. reflexivity.
Defined.

(** One submission at a time: the flag goes up, stays up through an edit,
    and is down again after the settlement. *)
Example single_submit_observed :
  observe (Some "https://api.example") [Submit] = Some (true, 1%nat)
  /\ observe (Some "https://api.example") [Submit; Change "Ghost B.C."] = Some (true, 1%nat)
  /\ observe (Some "https://api.example") Samples.single_submit = Some (false, 0%nat).
Proof. vm_compute. repeat split. Qed.

(** ** The result list *)

Lemma settle_results_failed (o : FetchOutcome) (st : State) :
  response_results o = None -> results (settle o st) = JArr [].
Proof.
  unfold response_results. destruct o as [res|err].
  - destruct (ok res) eqn:Hok.
    + destruct (json res) as [j|err] eqn:Hj.
      * destruct j; discriminate.
      * intros _. rewrite (settle_unparsed res err st Hok Hj). reflexivity.
    + intros _. destruct (text res) as [t|err] eqn:Ht.
      * rewrite (settle_not_ok res t st Hok Ht). reflexivity.
      * rewrite (settle_not_ok_unread res err st Hok Ht). reflexivity.
  - intros _. reflexivity.
Qed.

Lemma settle_results_successful (o : FetchOutcome) (r : option JsValue) (st : State) :
  response_results o = Some r -> results (settle o st) = nullish_or r (JArr []).
Proof.
  unfold response_results. destruct o as [res|err]; [|discriminate].
  destruct (ok res) eqn:Hok; [|discriminate].
  destruct (json res) as [j|err] eqn:Hj; [|discriminate].
  rewrite (settle_parsed res j st Hok Hj).
  destruct j; intros H; injection H as <-; reflexivity.
Qed.

Lemma nullish_or_cases (r : option JsValue) :
  nullish_or r (JArr []) = JArr [] \/ r = Some (nullish_or r (JArr [])).
Proof. destruct r as [[]|]; cbn; auto. Qed.

Lemma handleSubmit_keeps_results (API_URL : option string) (st : State) :
  match handleSubmit API_URL st with
  | Returned st' => results st' = results st
  | Awaiting st' _ => results st' = results st
  end.
Proof.
  destruct (handleSubmit_started API_URL st) as [[msg ->]|[req ->]]; reflexivity.
Qed.

Lemma results_invariant_run (API_URL : option string) (evs : list Event) :
  forall m m' acc,
    results (view m) = JArr [] \/ acc = Some (Some (results (view m))) ->
    run API_URL m evs = Some m' ->
    results (view m') = JArr []
    \/ last_successful acc evs = Some (Some (results (view m'))).
Proof.
  induction evs as [|ev evs IH]; intros m m' acc Inv Hrun; cbn in Hrun.
  - injection Hrun as <-. exact Inv.
  - destruct (step API_URL m ev) as [m1|] eqn:E; [|discriminate].
    destruct ev as [v| |i o]; cbn in E; cbn [last_successful].
    + injection E as <-. eapply IH; [|exact Hrun]. exact Inv.
    + pose proof (handleSubmit_keeps_results API_URL (view m)) as K.
      destruct (handleSubmit API_URL (view m)) as [st|st req];
        injection E as <-; (eapply IH; [|exact Hrun]); cbn; rewrite K; exact Inv.
    + destruct (nth_error (inflight m) i) as [rq|]; [|discriminate].
      injection E as <-. eapply IH; [|exact Hrun]. cbn.
      destruct (response_results o) as [r|] eqn:R.
      * rewrite (settle_results_successful o r (view m) R).
        destruct (nullish_or_cases r) as [H|H]; [left; exact H|right].
        rewrite <- H. reflexivity.
      * left. apply settle_results_failed. exact R.
Qed.

(** Claim C6.  The result list starts empty; a settlement replaces it
    without regard to what it held, by the [results] field of the body
    (or the empty list) on a successful response and by the empty list
    on every failed one; and after any run of events it is either empty
    or the [results] field of the most recent successful response. *)
Theorem C6_results_invariant (API_URL : option string) :
  results (view mount) = JArr []
  /\ (forall o st1 st2, results (settle o st1) = results (settle o st2))
  /\ (forall o r st,
        response_results o = Some r ->
        results (settle o st) = nullish_or r (JArr []))
  /\ (forall o st, response_results o = None -> results (settle o st) = JArr [])
  /\ (forall evs m,
        run API_URL mount evs = Some m ->
        results (view m) = JArr []
        \/ last_successful None evs = Some (Some (results (view m)))).
Proof.
  split; [reflexivity|].
  split.
  { intros o st1 st2. destruct (response_results o) as [r|] eqn:R.
    - rewrite !(settle_results_successful o r _ R). reflexivity.
    - rewrite !(settle_results_failed o _ R). reflexivity. }
  split; [apply settle_results_successful|].
  split; [apply settle_results_failed|].
  intros evs m. apply results_invariant_run. left. reflexivity.
Qed.

Lemma C6_results_invariant_witness :
  results (setLoading false (setResults (JArr [Samples.tribulation])
             (setLoading true (setQuery "Ghost B.C." initial)))) = JArr []
  \/ last_successful None Samples.single_submit
     = Some (Some (results (setLoading false (setResults (JArr [Samples.tribulation])
                              (setLoading true (setQuery "Ghost B.C." initial)))))).
Proof.
  apply (proj2 (proj2 (proj2 (proj2 (C6_results_invariant (Some "https://api.example")))))
           Samples.single_submit
           {| view := setLoading false (setResults (JArr [Samples.tribulation])
                        (setLoading true (setQuery "Ghost B.C." initial)));
              inflight := [] |}).
  vm_compute. reflexivity.
Defined.

(** ** Rendering a band *)

(** Claim C8.  For a band with a country code, the flag image is the CDN
    address with the lower-cased code in it, so the code ["DE"] gives an
    address ending in ["/de.png"]; a band without a country code gets no
    flag image. *)
Theorem C8_flag_url (b : Band) :
  (forall code,
      country_code b = Some code -> code <> "" ->
      getFlagUrl (country_code b)
      = Some ("https://flagcdn.com/24x18/" ++ toLowerCase code ++ ".png")
      /\ flag_image b
         = Some ("https://flagcdn.com/24x18/" ++ toLowerCase code ++ ".png"))
  /\ (country_code b = None ->
      getFlagUrl (country_code b) = None /\ flag_image b = None)
  /\ (country_code b = Some "DE" ->
      exists u, flag_image b = Some u /\ ends_with "/de.png" u = true).
Proof.
  unfold flag_image. split; [|split].
  - intros code -> Hne. destruct code; [contradiction|]. split; reflexivity.
  - intros ->. split; reflexivity.
  - intros ->. eexists. split; reflexivity.
Qed.

Lemma C8_flag_url_witness :
  getFlagUrl (country_code (Samples.band (Some "DE") None None))
  = Some ("https://flagcdn.com/24x18/" ++ toLowerCase "DE" ++ ".png")
  /\ flag_image (Samples.band (Some "DE") None None)
     = Some ("https://flagcdn.com/24x18/" ++ toLowerCase "DE" ++ ".png").
Proof.
  apply (proj1 (C8_flag_url (Samples.band (Some "DE") None None)) "DE").
  - reflexivity.
  - discriminate.
Defined.

(** A code that is the empty string is treated as no code. *)
Example empty_code_no_flag : flag_image (Samples.band (Some "") None None) = None.
Proof. reflexivity. Qed.

(** ** Digits *)

Lemma all_digits_append (a b : string) :
  all_digits (a ++ b) = all_digits a && all_digits b.
Proof.
  induction a as [|c a IH]; simpl; [reflexivity|].
  rewrite IH. apply andb_assoc.
Qed.

Lemma all_digits_zeros (n : nat) : all_digits (JsNumber.zeros n) = true.
Proof. induction n as [|n IH]; simpl; auto. Qed.

Lemma zeros_length (n : nat) : String.length (JsNumber.zeros n) = n.
Proof. induction n as [|n IH]; simpl; auto. Qed.

Lemma all_digits_uint (d : Decimal.uint) :
  all_digits (NilEmpty.string_of_uint d) = true.
Proof. induction d; simpl; auto. Qed.

Lemma all_digits_decimal (n : N) : all_digits (decimal n) = true.
Proof.
  unfold decimal, NilZero.string_of_uint.
  destruct (N.to_uint n); try apply all_digits_uint. reflexivity.
Qed.

Lemma decimal_length (n : N) : (1 <= String.length (decimal n))%nat.
Proof.
  unfold decimal, NilZero.string_of_uint.
  destruct (N.to_uint n); simpl; lia.
Qed.

Lemma all_digits_substring (s : string) :
  all_digits s = true -> forall i n, all_digits (substring i n s) = true.
Proof.
  induction s as [|c s IH]; intros H i n.
  - destruct i, n; reflexivity.
  - simpl in H. apply andb_true_iff in H. destruct H as [Hc Hs].
    destruct i as [|i]; destruct n as [|n]; simpl; auto.
    rewrite Hc. simpl. apply (IH Hs 0%nat n).
Qed.

Lemma substring_length (s : string) :
  forall i n, (i + n <= String.length s)%nat -> String.length (substring i n s) = n.
Proof.
  induction s as [|c s IH]; intros i n H; simpl in H.
  - assert (i = 0 /\ n = 0)%nat as [-> ->] by lia. reflexivity.
  - destruct i as [|i]; destruct n as [|n]; simpl; auto.
    + f_equal. apply (IH 0%nat n). lia.
    + apply (IH i 0%nat). lia.
    + apply (IH i (S n)). lia.
Qed.

Lemma length_zero_empty (s : string) : String.length s = 0%nat -> s = "".
Proof. destruct s; simpl; [reflexivity|discriminate]. Qed.

(** The digits that [toFixed] prints: at least one digit, a point, and
    [f] digits. *)
Lemma fixed_digits_shape (f : nat) (n : N) :
  (0 < f)%nat ->
  exists whole frac,
    JsNumber.fixed_digits f n = whole ++ "." ++ frac
    /\ whole <> "" /\ all_digits whole = true
    /\ all_digits frac = true /\ String.length frac = f.
Proof.
  intros Hf. unfold JsNumber.fixed_digits.
  destruct f as [|f']; [lia|]. set (f := S f') in *.
  set (m := decimal n).
  set (m' := if (String.length m <=? f)%nat
             then JsNumber.zeros (f + 1 - String.length m) ++ m else m).
  assert (Hd : all_digits m' = true).
  { unfold m'. destruct (String.length m <=? f)%nat.
    - rewrite all_digits_append, all_digits_zeros. apply all_digits_decimal.
    - apply all_digits_decimal. }
  assert (Hl : (f + 1 <= String.length m')%nat).
  { unfold m'. destruct (String.length m <=? f)%nat eqn:E.
    - apply Nat.leb_le in E. rewrite append_length, zeros_length. lia.
    - apply Nat.leb_gt in E. lia. }
  exists (substring 0 (String.length m' - f) m'), (substring (String.length m' - f) f m').
  split; [reflexivity|]. split; [|split; [|split]].
  - intros H. apply (f_equal String.length) in H.
    rewrite substring_length in H by lia. simpl in H. lia.
  - apply all_digits_substring. exact Hd.
  - apply all_digits_substring. exact Hd.
  - apply substring_length. lia.
Qed.

(** ** The value of the digits *)

Import Numerals.

Lemma digits_value_from_uint_pos (d : Decimal.uint) :
  forall p, digits_value_from (Npos p) (NilEmpty.string_of_uint d)
            = Npos (Pos.of_uint_acc d p).
Proof.
  induction d; intros p;
    cbn [NilEmpty.string_of_uint digits_value_from Pos.of_uint_acc];
    [reflexivity|..]; rewrite <- IHd; f_equal;
    match goal with
    | |- context [N_of_ascii ?c] =>
        let v := eval vm_compute in (N_of_ascii c) in change (N_of_ascii c) with v
    end; lia.
Qed.

Lemma digits_value_from_uint (d : Decimal.uint) :
  digits_value_from 0 (NilEmpty.string_of_uint d) = Pos.of_uint d.
Proof.
  induction d; cbn [NilEmpty.string_of_uint digits_value_from Pos.of_uint];
    [reflexivity|exact IHd|..];
    match goal with
    | |- context [N_of_ascii ?c] =>
        let v := eval vm_compute in (N_of_ascii c) in change (N_of_ascii c) with v
    end; apply digits_value_from_uint_pos.
Qed.

Lemma digits_value_decimal (n : N) : digits_value (decimal n) = n.
Proof.
  unfold digits_value, decimal, NilZero.string_of_uint.
  rewrite <- (Unsigned.of_to n) at 2. unfold N.of_uint.
  destruct (N.to_uint n); try apply digits_value_from_uint. reflexivity.
Qed.

Lemma digits_value_from_append (a b : string) :
  forall acc, digits_value_from acc (a ++ b) = digits_value_from (digits_value_from acc a) b.
Proof. induction a as [|c a IH]; intros acc; simpl; [reflexivity|apply IH]. Qed.

Lemma digits_value_from_zeros (k : nat) : digits_value_from 0 (JsNumber.zeros k) = 0%N.
Proof. induction k as [|k IH]; [reflexivity|exact IH]. Qed.

Lemma substring_split (s : string) :
  forall k, (k <= String.length s)%nat ->
            substring 0 k s ++ substring k (String.length s - k) s = s.
Proof.
  induction s as [|c s IH]; intros k H.
  - destruct k; reflexivity.
  - destruct k as [|k].
    + cbn [substring append String.length Nat.sub]. f_equal.
      specialize (IH 0%nat (Nat.le_0_l _)). rewrite Nat.sub_0_r in IH.
      destruct s; [reflexivity|]. cbn [substring append] in IH. exact IH.
    + cbn [substring append String.length Nat.sub]. f_equal. apply IH.
      simpl in H. lia.
Qed.

Lemma fixed_digits_value (f : nat) (n : N) :
  (0 < f)%nat ->
  exists whole frac,
    JsNumber.fixed_digits f n = whole ++ "." ++ frac
    /\ whole <> "" /\ all_digits whole = true
    /\ all_digits frac = true /\ String.length frac = f
    /\ digits_value (whole ++ frac) = n.
Proof.
  intros Hf. unfold JsNumber.fixed_digits.
  destruct f as [|f']; [lia|]. set (f := S f') in *.
  set (m := decimal n).
  set (m' := if (String.length m <=? f)%nat
             then JsNumber.zeros (f + 1 - String.length m) ++ m else m).
  assert (Hd : all_digits m' = true).
  { unfold m'. destruct (String.length m <=? f)%nat.
    - rewrite all_digits_append, all_digits_zeros. apply all_digits_decimal.
    - apply all_digits_decimal. }
  assert (Hl : (f + 1 <= String.length m')%nat).
  { unfold m'. destruct (String.length m <=? f)%nat eqn:E.
    - apply Nat.leb_le in E. rewrite append_length, zeros_length. lia.
    - apply Nat.leb_gt in E. lia. }
  assert (Hv : digits_value m' = n).
  { unfold m', digits_value. destruct (String.length m <=? f)%nat.
    - rewrite digits_value_from_append, digits_value_from_zeros.
      apply digits_value_decimal.
    - apply digits_value_decimal. }
  exists (substring 0 (String.length m' - f) m'), (substring (String.length m' - f) f m').
  split; [reflexivity|]. split; [|split; [|split; [|split]]].
  - intros H. apply (f_equal String.length) in H.
    rewrite substring_length in H by lia. simpl in H. lia.
  - apply all_digits_substring. exact Hd.
  - apply all_digits_substring. exact Hd.
  - apply substring_length. lia.
  - assert (E : substring (String.length m' - f) f m'
                = substring (String.length m' - f)
                    (String.length m' - (String.length m' - f)) m').
    { f_equal. lia. }
    rewrite E, substring_split by lia. exact Hv.
Qed.

Lemma pow2_pos (z : Z) : (0 < 2 ^ JsNumber.neg_part z)%Z.
Proof. apply Z.pow_pos_nonneg; [lia|]. unfold JsNumber.neg_part. lia. Qed.

Lemma fixed_integer_nearest (f : nat) (m : N) (e : Z) :
  nearest_scaled f m e (JsNumber.fixed_integer f m e).
Proof.
  unfold nearest_scaled, JsNumber.fixed_integer.
  set (den := (2 ^ JsNumber.neg_part e)%Z).
  set (x := (Z.of_N m * 2 ^ JsNumber.pos_part e)%Z).
  set (t := (10 ^ Z.of_nat f)%Z).
  assert (Hden : (0 < den)%Z) by apply pow2_pos.
  assert (Hx : (0 <= x)%Z).
  { unfold x. apply Z.mul_nonneg_nonneg; [lia|].
    apply Z.pow_nonneg. lia. }
  assert (Ht : (0 <= t)%Z) by (unfold t; apply Z.pow_nonneg; lia).
  assert (Hxt : (0 <= x * t)%Z) by (apply Z.mul_nonneg_nonneg; assumption).
  set (q := ((2 * (x * t) + den) / (2 * den))%Z).
  assert (Hq : (0 <= q)%Z).
  { unfold q. apply Z.div_pos; lia. }
  rewrite Z2N.id by exact Hq.
  pose proof (Z.div_mod (2 * (x * t) + den) (2 * den) ltac:(lia)) as D.
  pose proof (Z.mod_pos_bound (2 * (x * t) + den) (2 * den) ltac:(lia)) as B.
  fold q in D. nia.
Qed.

Lemma has_point_append (a b : string) : has_point (a ++ b) = has_point a || has_point b.
Proof.
  induction a as [|c a IH]; simpl; [reflexivity|].
  rewrite IH. apply orb_assoc.
Qed.

Lemma decimal_places_need_point (f : nat) (t : string) :
  has_decimal_places f t -> has_point t = true.
Proof.
  intros (sign & whole & frac & -> & _).
  rewrite !has_point_append. simpl. rewrite !orb_true_r. reflexivity.
Qed.

(** Claim C9, as stated, fails: a score of 1e21, a binary64 value like any
    other, is shown as ["similarity: 1e+21 "], which has no decimal
    places. *)
Lemma C9_counterexample :
  JsNumber.is_double Samples.score_1e21 = true
  /\ similarity_fragment (Samples.band None None (Some Samples.score_1e21))
     = Some "similarity: 1e+21 "
  /\ ~ has_decimal_places 3 "1e+21".
Proof.
  split; [vm_compute; reflexivity|]. split; [vm_compute; reflexivity|].
  intros H. apply decimal_places_need_point in H. discriminate.
Qed.

(** Claim C9, amended.  A finite score below 10^21 in magnitude is shown
    as ["similarity: "] followed by a numeral with exactly three decimal
    places, the score 0.12345 as ["similarity: 0.123"]; a band with
    neither a score nor a popularity shows neither fragment.  The
    numeral is what [toFixed(3)] gives: a minus sign for a negative
    score, then the digits of the integer nearest to a thousand times
    the magnitude of the score, with a point before the last three. *)
Theorem C9_caption (b : Band) :
  (forall negative m e,
      score b = Some (JsNumber.Finite negative m e) ->
      JsNumber.at_least_1e21 m e = false ->
      exists whole frac,
        similarity_fragment b
        = Some ("similarity: " ++ JsNumber.toFixed 3 (JsNumber.Finite negative m e) ++ " ")
        /\ JsNumber.toFixed 3 (JsNumber.Finite negative m e)
           = (if negative && negb (m =? 0)%N then "-" else "") ++ whole ++ "." ++ frac
        /\ has_decimal_places 3 (JsNumber.toFixed 3 (JsNumber.Finite negative m e))
        /\ whole <> "" /\ all_digits whole = true
        /\ all_digits frac = true /\ String.length frac = 3%nat
        /\ nearest_scaled 3 m e (digits_value (whole ++ frac)))
  /\ (score b = Some Samples.score_0_12345 ->
      similarity_fragment b = Some "similarity: 0.123 ")
  /\ (score b = None -> popularity b = None ->
      similarity_fragment b = None /\ popularity_fragment b = None
      /\ caption b = "").
Proof.
  unfold caption, similarity_fragment, popularity_fragment.
  split; [|split].
  - intros negative m e -> Hsmall.
    destruct (fixed_digits_value 3 (JsNumber.fixed_integer 3 m e))
      as (whole & frac & Hf & H1 & H2 & H3 & H4 & H5); [lia|].
    assert (Ht : JsNumber.toFixed 3 (JsNumber.Finite negative m e)
                 = (if negative && negb (m =? 0)%N then "-" else "")
                   ++ whole ++ "." ++ frac).
    { unfold JsNumber.toFixed. rewrite Hsmall, Hf. reflexivity. }
    exists whole, frac. split; [reflexivity|]. split; [exact Ht|].
    split.
    + rewrite Ht.
      exists (if negative && negb (m =? 0)%N then "-" else ""), whole, frac.
      repeat split; trivial.
      destruct (negative && negb (m =? 0)%N); auto.
    + split; [exact H1|]. split; [exact H2|]. split; [exact H3|].
      split; [exact H4|]. rewrite H5. apply fixed_integer_nearest.
  - intros ->. vm_compute. reflexivity.
  - intros -> ->. repeat split.
Qed.

Lemma C9_caption_witness :
  exists whole frac,
    similarity_fragment (Samples.band None None (Some Samples.score_0_12345))
    = Some ("similarity: "
            ++ JsNumber.toFixed 3 (JsNumber.Finite false 8895509983982204 (-56)) ++ " ")
    /\ JsNumber.toFixed 3 (JsNumber.Finite false 8895509983982204 (-56))
       = (if false && negb (8895509983982204 =? 0)%N then "-" else "")
         ++ whole ++ "." ++ frac
    /\ has_decimal_places 3 (JsNumber.toFixed 3 (JsNumber.Finite false 8895509983982204 (-56)))
    /\ whole <> "" /\ all_digits whole = true
    /\ all_digits frac = true /\ String.length frac = 3%nat
    /\ nearest_scaled 3 8895509983982204 (-56) (digits_value (whole ++ frac)).
Proof.
  apply (proj1 (C9_caption (Samples.band None None (Some Samples.score_0_12345)))
           false 8895509983982204%N (-56)%Z).
  - reflexivity.
  - vm_compute. reflexivity.
Defined.

(** How some scores and popularities are shown. *)
Example captions :
  caption (Samples.band None (Some (JsNumber.of_N 62)) (Some Samples.score_0_12345))
  = "similarity: 0.123 (popularity: 62)"
  /\ caption (Samples.band None (Some (JsNumber.of_N 62)) None) = "(popularity: 62)"
  /\ caption (Samples.band None None None) = "".
Proof. vm_compute. repeat split. Qed.

(** ** Requests in flight *)

Lemma remove_nth_Forall {A} (P : A -> Prop) (i : nat) (l : list A) :
  Forall P l -> Forall P (remove_nth i l).
Proof.
  intros H. revert i. induction H as [|x l Hx Hl IH]; intros [|i]; cbn; auto.
Qed.

(** Every request in flight, after any run of events, is a request of
    the contract for the configured base address. *)
Lemma inflight_follow_contract (API_URL : option string) (evs : list Event) :
  forall m m',
    Forall (fun req => exists base input,
                API_URL = Some base /\ req = recommendations_request base input)
      (inflight m) ->
    run API_URL m evs = Some m' ->
    Forall (fun req => exists base input,
                API_URL = Some base /\ req = recommendations_request base input)
      (inflight m').
Proof.
  induction evs as [|ev evs IH]; intros m m' Inv Hrun; cbn in Hrun.
  - injection Hrun as <-. exact Inv.
  - destruct (step API_URL m ev) as [m1|] eqn:E; [|discriminate].
    eapply IH; [|exact Hrun]. clear Hrun IH.
    destruct ev as [v| |i o]; cbn in E.
    + injection E as <-. exact Inv.
    + destruct (passes_checks API_URL (view m)) eqn:P.
      * destruct (passes_checks_configured API_URL (view m) P) as (base & -> & _).
        rewrite (handleSubmit_dispatches (Some base) (view m) P) in E.
        injection E as <-. cbn. apply Forall_app. split; [exact Inv|].
        constructor; [|constructor]. eauto.
      * destruct (handleSubmit_returns API_URL (view m) P) as [msg R].
        rewrite R in E. injection E as <-. exact Inv.
    + destruct (nth_error (inflight m) i); [|discriminate].
      injection E as <-. cbn. apply remove_nth_Forall. exact Inv.
Qed.

(** * Further properties of the handler *)

Import View Outcomes Reader.

(** ** Every way a request can settle *)

Lemma caught_truthy (err : JsError) : truthy (caught err) = true.
Proof. apply or_else_truthy. reflexivity. Qed.

Lemma failure_message_truthy (o : FetchOutcome) (msg : string) :
  failure_message o = Some msg -> truthy msg = true.
Proof.
  unfold failure_message. destruct o as [res|err].
  - destruct (ok res).
    + destruct (json res) as [[]|err]; intros H; try discriminate;
        injection H as <-; try reflexivity. apply caught_truthy.
    + destruct (text res) as [t|err]; intros H; injection H as <-.
      * apply or_else_truthy. reflexivity.
      * apply caught_truthy.
  - intros H. injection H as <-. apply caught_truthy.
Qed.

Lemma settle_by_cases (o : FetchOutcome) (st : State) :
  settle o st
  = match failure_message o with
    | Some msg => failed msg st
    | None => setLoading false (setResults (success_value o) st)
    end.
Proof.
  unfold failure_message, success_value, response_results.
  destruct o as [res|err]; [|apply settle_rejected].
  destruct (ok res) eqn:Hok.
  - destruct (json res) as [j|err] eqn:Hj.
    + rewrite (settle_parsed res j st Hok Hj). destruct j; reflexivity.
    + apply (settle_unparsed res err st Hok Hj).
  - destruct (text res) as [t|err] eqn:Ht.
    + apply (settle_not_ok res t st Hok Ht).
    + apply (settle_not_ok_unread res err st Hok Ht).
Qed.

(** The handler after the request has settled, as a table: when the
    [try] block throws, whatever the place, the message goes to the error
    slot, the result list is emptied, the loading flag is cleared and the
    banner shows the message; otherwise the result list is written, the
    loading flag is cleared and the banner stays as it was.  A rejected
    [fetch], an unreadable body, a body that is not JSON and a body that
    is [null] are all reported that way, with the message of the thrown
    value, or ["Unknown error"] when that message is empty. *)
Theorem settle_table (o : FetchOutcome) (st : State) :
  settle o st
  = match failure_message o with
    | Some msg => failed msg st
    | None => setLoading false (setResults (success_value o) st)
    end
  /\ error_banner (settle o st)
     = match failure_message o with
       | Some msg => Some ("Error: " ++ msg)
       | None => error_banner st
       end.
Proof.
  split; [apply settle_by_cases|].
  rewrite settle_by_cases. destruct (failure_message o) as [msg|] eqn:F.
  - apply failure_message_truthy in F. unfold error_banner. cbn.
    rewrite F. reflexivity.
  - reflexivity.
Qed.

(** A settlement never touches the query, and a successful one leaves the
    error slot as it finds it: an error written while the request was in
    flight stays on display next to the new results. *)
Theorem settle_frame (o : FetchOutcome) (st : State) :
  query (settle o st) = query st
  /\ loading (settle o st) = false
  /\ (failure_message o = None ->
      error (settle o st) = error st
      /\ results (settle o st) = success_value o).
Proof.
  rewrite settle_by_cases. destruct (failure_message o) as [msg|].
  - split; [reflexivity|]. split; [reflexivity|]. discriminate.
  - repeat split.
Qed.

(** ** The error slot *)

Lemma handleSubmit_error (API_URL : option string) (st : State) :
  match handleSubmit API_URL st with
  | Returned st' => exists msg, error st' = Some msg /\ truthy msg = true
  | Awaiting st' _ => error st' = None
  end.
Proof.
  destruct (passes_checks API_URL st) eqn:P.
  - rewrite (handleSubmit_dispatches API_URL st P). reflexivity.
  - unfold passes_checks in P. apply andb_false_iff in P.
    destruct (truthy_opt API_URL) eqn:E.
    + destruct P as [P|P]; [discriminate|]. apply truthy_false_iff in P.
      rewrite (handleSubmit_blank API_URL st E P). eexists. split; reflexivity.
    + rewrite (handleSubmit_unconfigured API_URL st E). eexists. split; reflexivity.
Qed.

Lemma error_nonempty_step (API_URL : option string) (m m' : Machine) (ev : Event) :
  error (view m) <> Some "" ->
  step API_URL m ev = Some m' ->
  error (view m') <> Some "".
Proof.
  intros Inv Hstep. destruct ev as [v| |i o]; cbn in Hstep.
  - injection Hstep as <-. exact Inv.
  - pose proof (handleSubmit_error API_URL (view m)) as H.
    destruct (handleSubmit API_URL (view m)) as [st|st req];
      injection Hstep as <-; cbn.
    + destruct H as (msg & -> & Hm). intros E. injection E as ->. discriminate.
    + rewrite H. discriminate.
  - destruct (nth_error (inflight m) i); [|discriminate].
    injection Hstep as <-. cbn. rewrite settle_by_cases.
    destruct (failure_message o) as [msg|] eqn:F.
    + cbn. intros E. injection E as ->.
      apply failure_message_truthy in F. discriminate.
    + exact Inv.
Qed.

Lemma error_nonempty_run (API_URL : option string) (evs : list Event) :
  forall m m',
    error (view m) <> Some "" ->
    run API_URL m evs = Some m' ->
    error (view m') <> Some "".
Proof.
  induction evs as [|ev evs IH]; intros m m' Inv Hrun; cbn in Hrun.
  - injection Hrun as <-. exact Inv.
  - destruct (step API_URL m ev) as [m1|] eqn:E; [|discriminate].
    apply (IH m1 m' (error_nonempty_step API_URL m m1 ev Inv E) Hrun).
Qed.

(** The error slot never holds the empty string: at every point of every
    run it is [null] or a non-empty message, so the banner is on display
    exactly when the slot is not [null]. *)
Theorem error_never_empty (API_URL : option string) (evs : list Event) (m : Machine) :
  run API_URL mount evs = Some m ->
  error (view m) <> Some ""
  /\ (error_banner (view m) = None <-> error (view m) = None)
  /\ (banner_shown (error (view m)) = false <-> error (view m) = None).
Proof.
  intros Hrun.
  assert (H : error (view m) <> Some "").
  { apply (error_nonempty_run API_URL evs mount m); [discriminate|exact Hrun]. }
  split; [exact H|].
  unfold error_banner, banner_shown.
  destruct (error (view m)) as [[|c e]|]; cbn; repeat split;
    try discriminate; try reflexivity; intros; exfalso; apply H; reflexivity.
Qed.

Lemma error_never_empty_witness :
  error (view {| view := failed "rate limited" (setLoading true initial); inflight := [] |})
  <> Some ""
  /\ (error_banner
        (view {| view := failed "rate limited" (setLoading true initial); inflight := [] |})
      = None
      <-> error (view {| view := failed "rate limited" (setLoading true initial);
                         inflight := [] |}) = None)
  /\ (banner_shown
        (error (view {| view := failed "rate limited" (setLoading true initial);
                        inflight := [] |})) = false
      <-> error (view {| view := failed "rate limited" (setLoading true initial);
                         inflight := [] |}) = None).
Proof.
  apply (error_never_empty (Some "https://api.example")
           [Submit; Settle 0 (Normal Samples.rate_limited)]).
  vm_compute. reflexivity.
Defined.

Lemma settle_frame_witness :
  error (settle (Normal Samples.found)
           (setError (Some "Please type a band name.") (setLoading true initial)))
  = Some "Please type a band name."
  /\ results (settle (Normal Samples.found)
                (setError (Some "Please type a band name.") (setLoading true initial)))
     = success_value (Normal Samples.found).
Proof.
  apply (proj2 (proj2 (settle_frame (Normal Samples.found)
                         (setError (Some "Please type a band name.")
                            (setLoading true initial))))).
  reflexivity.
Defined.

(** ** Dispatching *)

(** A submission that sends a request clears the error and raises the
    loading flag before the request is answered, and leaves the query and
    the result list alone: the results of the previous search stay on
    display while the next one is loading. *)
Theorem dispatch_frame (API_URL : option string) (st st' : State) (req : Request) :
  handleSubmit API_URL st = Awaiting st' req ->
  error st' = None /\ loading st' = true
  /\ query st' = query st /\ results st' = results st.
Proof.
  destruct (handleSubmit_started API_URL st) as [[msg ->]|[req' ->]]; [discriminate|].
  intros H. injection H as <- _. repeat split.
Qed.

Lemma dispatch_frame_witness :
  error (setLoading true (setQuery "Ghost" Samples.blank_after_results)) = None
  /\ loading (setLoading true (setQuery "Ghost" Samples.blank_after_results)) = true
  /\ query (setLoading true (setQuery "Ghost" Samples.blank_after_results))
     = query (setQuery "Ghost" Samples.blank_after_results)
  /\ results (setLoading true (setQuery "Ghost" Samples.blank_after_results))
     = results (setQuery "Ghost" Samples.blank_after_results).
Proof.
  apply (dispatch_frame (Some "https://api.example")
           (setQuery "Ghost" Samples.blank_after_results)
           (setLoading true (setQuery "Ghost" Samples.blank_after_results))
           (recommendations_request "https://api.example" "Ghost")).
  vm_compute. reflexivity.
Defined.

(** One submission from start to end, when it passes the local checks:
    what is left depends on the query and on the outcome only.  On
    success the error is [null], whatever it was before; on failure it is
    the message and the result list is empty. *)
Theorem lone_submission_table (API_URL : option string) (o : FetchOutcome) (st : State) :
  passes_checks API_URL st = true ->
  lone_submission API_URL o st
  = match failure_message o with
    | Some msg =>
        {| query := query st; results := JArr []; loading := false; error := Some msg |}
    | None =>
        {| query := query st; results := success_value o; loading := false;
           error := None |}
    end.
Proof.
  intros P. unfold lone_submission.
  rewrite (handleSubmit_dispatches API_URL st P), settle_by_cases.
  destruct (failure_message o); reflexivity.
Qed.

Lemma lone_submission_table_witness :
  lone_submission (Some "https://api.example") (Normal Samples.found)
    (setError (Some "rate limited") initial)
  = match failure_message (Normal Samples.found) with
    | Some msg =>
        {| query := query (setError (Some "rate limited") initial);
           results := JArr []; loading := false; error := Some msg |}
    | None =>
        {| query := query (setError (Some "rate limited") initial);
           results := success_value (Normal Samples.found); loading := false;
           error := None |}
    end.
Proof.
  apply (lone_submission_table (Some "https://api.example") (Normal Samples.found)
           (setError (Some "rate limited") initial)).
  reflexivity.
Defined.

(** ** The shape of the result list *)

Lemma success_value_not_null (o : FetchOutcome) : success_value o <> JNull.
Proof.
  unfold success_value. destruct (response_results o) as [[[]|]|]; cbn; discriminate.
Qed.

Lemma success_value_shaped (o : FetchOutcome) :
  contract_shaped o = true -> exists items, success_value o = JArr items.
Proof.
  unfold contract_shaped, success_value.
  destruct (response_results o) as [[[]|]|]; cbn; intros H;
    try discriminate; eauto.
Qed.

Lemma settle_results (o : FetchOutcome) (st : State) :
  results (settle o st) = JArr [] \/ results (settle o st) = success_value o.
Proof.
  rewrite settle_by_cases. destruct (failure_message o); [left|right]; reflexivity.
Qed.

Lemma results_shape_run (API_URL : option string) (evs : list Event) :
  forall m m',
    run API_URL m evs = Some m' ->
    (results (view m) <> JNull -> results (view m') <> JNull)
    /\ (all_shaped evs = true ->
        (exists items, results (view m) = JArr items) ->
        exists items, results (view m') = JArr items).
Proof.
  induction evs as [|ev evs IH]; intros m m' Hrun; cbn in Hrun.
  - injection Hrun as <-. split; auto.
  - destruct (step API_URL m ev) as [m1|] eqn:E; [|discriminate].
    destruct (IH m1 m' Hrun) as [IH1 IH2]. clear IH Hrun.
    destruct ev as [v| |i o]; cbn in E; cbn [all_shaped].
    + injection E as <-. split; [exact IH1|exact IH2].
    + pose proof (handleSubmit_keeps_results API_URL (view m)) as K.
      destruct (handleSubmit API_URL (view m)) as [st|st req];
        injection E as <-; cbn in IH1, IH2; rewrite K in IH1, IH2;
        split; [exact IH1|exact IH2|exact IH1|exact IH2].
    + destruct (nth_error (inflight m) i) as [rq|]; [|discriminate].
      injection E as <-. cbn in IH1, IH2. split.
      * intros _. apply IH1.
        destruct (settle_results o (view m)) as [->| ->];
          [discriminate|apply success_value_not_null].
      * intros H _. apply andb_true_iff in H. destruct H as [H1 H2].
        apply (IH2 H2).
        destruct (settle_results o (view m)) as [->| ->];
          [eauto|apply success_value_shaped; exact H1].
Qed.

(** The result list is never [null], so reading its length cannot throw;
    and as long as every successful response carries an array (or
    nothing, or [null]) in its [results] field, the result list is an
    array at every point of the run. *)
Theorem results_stay_array (API_URL : option string) (evs : list Event) (m : Machine) :
  run API_URL mount evs = Some m ->
  results (view m) <> JNull
  /\ (all_shaped evs = true -> exists items, results (view m) = JArr items).
Proof.
  intros Hrun. destruct (results_shape_run API_URL evs mount m Hrun) as [H1 H2].
  split.
  - apply H1. discriminate.
  - intros H. apply (H2 H). exists []. reflexivity.
Qed.

Lemma results_stay_array_witness :
  results (view {| view := setLoading false (setResults (JArr [Samples.tribulation])
                            (setLoading true (setQuery "Ghost B.C." initial)));
                   inflight := [] |}) <> JNull
  /\ (all_shaped Samples.single_submit = true ->
      exists items,
        results (view {| view := setLoading false (setResults (JArr [Samples.tribulation])
                                   (setLoading true (setQuery "Ghost B.C." initial)));
                         inflight := [] |}) = JArr items).
Proof.
  apply (results_stay_array (Some "https://api.example") Samples.single_submit).
  vm_compute. reflexivity.
Defined.

(** ** The query that is sent *)

Lemma trimStart_head (s : string) :
  trimStart s = "" \/ exists c r, trimStart s = String c r /\ is_white_space c = false.
Proof.
  induction s as [|c s IH]; simpl; [left; reflexivity|].
  destruct (is_white_space c) eqn:E; [exact IH|right; eauto].
Qed.

Lemma trimEnd_head (c : ascii) (s : string) :
  is_white_space c = false -> exists r, trimEnd (String c s) = String c r.
Proof.
  intros E. simpl. destruct (trimEnd s); [rewrite E|]; eauto.
Qed.

Lemma trim_first (s : string) :
  trim s <> "" -> exists c r, trim s = String c r /\ is_white_space c = false.
Proof.
  unfold trim. destruct (trimStart_head s) as [->|(c & r & -> & E)].
  - intros H. contradiction H. reflexivity.
  - intros _. destruct (trimEnd_head c r E) as [r' ->]. eauto.
Qed.

Lemma trimEnd_last (s : string) :
  trimEnd s <> "" ->
  exists init c, trimEnd s = init ++ String c "" /\ is_white_space c = false.
Proof.
  induction s as [|c s IH]; simpl; [intros H; contradiction H; reflexivity|].
  destruct (trimEnd s) as [|a t] eqn:T.
  - destruct (is_white_space c) eqn:E; [intros H; contradiction H; reflexivity|].
    intros _. exists "", c. split; [reflexivity|exact E].
  - intros _. destruct IH as (init & c' & -> & E); [discriminate|].
    exists (String c init), c'. split; [reflexivity|exact E].
Qed.

Lemma trimEnd_idem (s : string) : trimEnd (trimEnd s) = trimEnd s.
Proof.
  induction s as [|c s IH]; simpl; [reflexivity|].
  destruct (trimEnd s) as [|a t] eqn:T.
  - destruct (is_white_space c) eqn:E; simpl; [reflexivity|]. rewrite E. reflexivity.
  - change (trimEnd (String c (String a t))) with
      (match trimEnd (String a t) with
       | "" => if is_white_space c then "" else String c ""
       | String x y => String c (String x y)
       end).
    rewrite IH. reflexivity.
Qed.

Lemma trim_idem (s : string) : trim (trim s) = trim s.
Proof.
  destruct (trim s) as [|c r] eqn:T; [reflexivity|].
  destruct (trim_first s) as (c' & r' & T' & E); [rewrite T; discriminate|].
  rewrite T in T'. injection T' as <- <-.
  unfold trim at 1. simpl trimStart. rewrite E.
  rewrite <- T. unfold trim. apply trimEnd_idem.
Qed.

Lemma handleSubmit_awaiting (API_URL : option string) (st st' : State) (req : Request) :
  handleSubmit API_URL st = Awaiting st' req ->
  passes_checks API_URL st = true
  /\ req = recommendations_request (to_string_opt API_URL) (query st).
Proof.
  destruct (passes_checks API_URL st) eqn:P.
  - rewrite (handleSubmit_dispatches API_URL st P). intros H.
    injection H as _ <-. split; reflexivity.
  - destruct (handleSubmit_returns API_URL st P) as [msg ->]. discriminate.
Qed.

(** The query that goes into a request is never empty, neither begins
    nor ends with white space, and trimming it again changes nothing. *)
Theorem sent_query_trimmed (API_URL : option string) (st st' : State) (req : Request) :
  handleSubmit API_URL st = Awaiting st' req ->
  exists t,
    body req = "{" ++ quote "query" ++ ":" ++ quote t ++ "," ++ quote "limit" ++ ":10}"
    /\ t = trim (query st)
    /\ trim t = t
    /\ (exists c r, t = String c r /\ is_white_space c = false)
    /\ (exists init c, t = init ++ String c "" /\ is_white_space c = false).
Proof.
  intros H. destruct (handleSubmit_awaiting API_URL st st' req H) as [P ->].
  destruct (passes_checks_configured API_URL st P) as (base & _ & _ & Hne).
  exists (trim (query st)). split; [reflexivity|]. split; [reflexivity|].
  split; [apply trim_idem|]. split.
  - apply trim_first. exact Hne.
  - unfold trim in *. apply trimEnd_last. exact Hne.
Qed.

Lemma sent_query_trimmed_witness :
  exists t,
    body (recommendations_request "https://api.example" "  Ghost ")
    = "{" ++ quote "query" ++ ":" ++ quote t ++ "," ++ quote "limit" ++ ":10}"
    /\ t = trim (query (setQuery "  Ghost " initial))
    /\ trim t = t
    /\ (exists c r, t = String c r /\ is_white_space c = false)
    /\ (exists init c, t = init ++ String c "" /\ is_white_space c = false).
Proof.
  apply (sent_query_trimmed (Some "https://api.example") (setQuery "  Ghost " initial)
           (setLoading true (setQuery "  Ghost " initial))
           (recommendations_request "https://api.example" "  Ghost ")).
  vm_compute. reflexivity.
Defined.

(** Reading back what [quote_units] wrote gives the string it was given
    and stops at the closing quote. *)
Lemma read_quote_units (s rest : string) :
  read_units (quote_units s ++ String "034" rest) = Some (s, rest).
Proof.
  induction s as [|c s IH]; [reflexivity|].
  cbn [quote_units]. rewrite append_assoc.
  destruct c as [[] [] [] [] [] [] [] []];
    match goal with
    | |- context [quote_unit ?c] =>
        let x := eval vm_compute in (quote_unit c) in
        change (quote_unit c) with x
    end;
    cbn; rewrite IH; reflexivity.
Qed.

Lemma body_payload (base input : string) :
  body (recommendations_request base input)
  = "{" ++ dquote ++ "query" ++ dquote ++ ":" ++ dquote
    ++ (quote_units (trim input)
        ++ String "034" ("," ++ dquote ++ "limit" ++ dquote ++ ":10}")).
Proof.
  unfold recommendations_request, body, quote, dquote.
  rewrite !append_assoc. reflexivity.
Qed.

(** The body of a request determines the trimmed query: whatever
    characters the query holds (quotes, backslashes, control characters),
    no two different queries are sent as the same body. *)
Theorem body_determines_query (API_URL : option string)
    (st1 st2 st1' st2' : State) (req1 req2 : Request) :
  handleSubmit API_URL st1 = Awaiting st1' req1 ->
  handleSubmit API_URL st2 = Awaiting st2' req2 ->
  body req1 = body req2 ->
  trim (query st1) = trim (query st2).
Proof.
  intros H1 H2 Hb.
  destruct (handleSubmit_awaiting API_URL st1 st1' req1 H1) as [_ ->].
  destruct (handleSubmit_awaiting API_URL st2 st2' req2 H2) as [_ ->].
  rewrite !body_payload in Hb. cbn in Hb.
  injection Hb as Hb. apply (f_equal read_units) in Hb.
  rewrite !read_quote_units in Hb. injection Hb as Hb. exact Hb.
Qed.

Lemma body_determines_query_witness :
  trim (query (setQuery "Ghost " initial)) = trim (query (setQuery " Ghost" initial)).
Proof.
  apply (body_determines_query (Some "https://api.example")
           (setQuery "Ghost " initial) (setQuery " Ghost" initial)
           (setLoading true (setQuery "Ghost " initial))
           (setLoading true (setQuery " Ghost" initial))
           (recommendations_request "https://api.example" "Ghost ")
           (recommendations_request "https://api.example" " Ghost")).
  - vm_compute. reflexivity.
  - vm_compute. reflexivity.
  - vm_compute. reflexivity.
Defined.

(** * Further properties of the view *)

(** ** The flag *)

Lemma lower_unit_idem (c : ascii) : lower_unit (lower_unit c) = lower_unit c.
Proof. destruct c as [[] [] [] [] [] [] [] []]; reflexivity. Qed.

Lemma toLowerCase_idem (s : string) : toLowerCase (toLowerCase s) = toLowerCase s.
Proof.
  induction s as [|c s IH]; simpl; [reflexivity|].
  rewrite lower_unit_idem, IH. reflexivity.
Qed.

Lemma toLowerCase_truthy (s : string) : truthy (toLowerCase s) = truthy s.
Proof. destruct s; reflexivity. Qed.

Lemma getFlagUrl_some (code : string) :
  getFlagUrl (Some code)
  = if truthy code
    then Some ("https://flagcdn.com/24x18/" ++ toLowerCase code ++ ".png")
    else None.
Proof. unfold getFlagUrl. destruct (truthy code); reflexivity. Qed.

(** The flag address does not depend on the letter case of the country
    code: two codes with the same lower-case form get the same address,
    and lower-casing a code beforehand changes nothing. *)
Theorem flag_url_ignores_case (a b : string) :
  (toLowerCase a = toLowerCase b -> getFlagUrl (Some a) = getFlagUrl (Some b))
  /\ getFlagUrl (Some (toLowerCase a)) = getFlagUrl (Some a).
Proof.
  split.
  - intros H. rewrite !getFlagUrl_some, H.
    rewrite <- (toLowerCase_truthy a), <- (toLowerCase_truthy b), H. reflexivity.
  - rewrite !getFlagUrl_some, toLowerCase_idem, toLowerCase_truthy. reflexivity.
Qed.

Lemma flag_url_ignores_case_witness :
  getFlagUrl (Some "De") = getFlagUrl (Some "dE").
Proof.
  apply (proj1 (flag_url_ignores_case "De" "dE")). reflexivity.
Defined.

Lemma ends_with_append (suffix a : string) : ends_with suffix (a ++ suffix) = true.
Proof.
  induction a as [|c a IH].
  - change ("" ++ suffix) with suffix.
    destruct suffix; cbn [ends_with]; rewrite String.eqb_refl; reflexivity.
  - change (String c a ++ suffix) with (String c (a ++ suffix)).
    cbn [ends_with]. rewrite IH. apply orb_true_r.
Qed.

Lemma alt_text_cases (c : option string) :
  (if truthy_opt c then to_string_opt c ++ " flag" else "Country flag") <> ""
  /\ ends_with "flag"
       (if truthy_opt c then to_string_opt c ++ " flag" else "Country flag") = true
  /\ (forall name, c = Some name -> name <> "" ->
                   (if truthy_opt c then to_string_opt c ++ " flag" else "Country flag")
                   = name ++ " flag")
  /\ (c = None \/ c = Some "" ->
      (if truthy_opt c then to_string_opt c ++ " flag" else "Country flag")
      = "Country flag").
Proof.
  destruct c as [[|x name]|]; cbv [truthy_opt truthy to_string_opt].
  - repeat split; try discriminate. intros name H. injection H as <-.
    intros N. contradiction N. reflexivity.
  - split; [discriminate|]. split; [|split].
    + replace (String x name ++ " flag") with ((String x name ++ " ") ++ "flag").
      * apply ends_with_append.
      * rewrite append_assoc. reflexivity.
    + intros n H. injection H as <-. reflexivity.
    + intros [H|H]; discriminate.
  - repeat split; discriminate.
Qed.

(** The flag image is rendered exactly when the band has a non-empty
    country code.  It is then 24 by 18, its source is the address from
    [getFlagUrl], and its alternative text is never empty and ends with
    ["flag"]: the country followed by [" flag"] for a band with a
    non-empty country, and ["Country flag"] for a band with no country or
    an empty one. *)
Theorem flag_img_rendered (b : Band) :
  (flag_img b = None <-> country_code b = None \/ country_code b = Some "")
  /\ (forall img,
        flag_img b = Some img ->
        getFlagUrl (country_code b) = Some (src img)
        /\ width img = 24%nat /\ height img = 18%nat
        /\ alt img <> ""
        /\ ends_with "flag" (alt img) = true
        /\ (forall name, country b = Some name -> name <> "" ->
                         alt img = name ++ " flag")
        /\ (country b = None \/ country b = Some "" -> alt img = "Country flag")).
Proof.
  unfold flag_img. destruct (country_code b) as [[|c code]|].
  - split; [split; auto|discriminate].
  - split.
    + split; [discriminate|]. intros [H|H]; discriminate.
    + intros img H. injection H as <-. cbn [src alt width height].
      split; [reflexivity|]. split; [reflexivity|]. split; [reflexivity|].
      apply alt_text_cases.
  - split; [split; auto|discriminate].
Qed.

Lemma flag_img_rendered_witness :
  getFlagUrl (country_code (Samples.band (Some "SE") None None))
  = Some (src {| src := "https://flagcdn.com/24x18/se.png"; alt := "Sweden flag";
                 width := 24; height := 18 |})
  /\ width {| src := "https://flagcdn.com/24x18/se.png"; alt := "Sweden flag";
              width := 24; height := 18 |} = 24%nat
  /\ height {| src := "https://flagcdn.com/24x18/se.png"; alt := "Sweden flag";
               width := 24; height := 18 |} = 18%nat
  /\ alt {| src := "https://flagcdn.com/24x18/se.png"; alt := "Sweden flag";
            width := 24; height := 18 |} <> ""
  /\ ends_with "flag" (alt {| src := "https://flagcdn.com/24x18/se.png";
                              alt := "Sweden flag"; width := 24; height := 18 |}) = true
  /\ (forall name, country (Samples.band (Some "SE") None None) = Some name ->
                   name <> "" ->
                   alt {| src := "https://flagcdn.com/24x18/se.png"; alt := "Sweden flag";
                          width := 24; height := 18 |} = name ++ " flag")
  /\ (country (Samples.band (Some "SE") None None) = None
      \/ country (Samples.band (Some "SE") None None) = Some "" ->
      alt {| src := "https://flagcdn.com/24x18/se.png"; alt := "Sweden flag";
             width := 24; height := 18 |} = "Country flag").
Proof.
  apply (proj2 (flag_img_rendered (Samples.band (Some "SE") None None))).
  reflexivity.
Defined.

(** ** What is shown under the form *)

(** The hint is shown exactly when nothing else is going on: the
    component is not loading, the banner is not shown and the list is not
    shown.  So the hint never shares the screen with the banner or with
    the list. *)
Lemma hint_alone {A} (loading : bool) (error : option string) (results : list A) :
  hint_shown loading error results
  = negb loading && negb (banner_shown error) && negb (list_shown results).
Proof.
  unfold hint_shown, banner_shown, list_shown.
  destruct results; reflexivity.
Qed.

(** The banner and the list do share the screen: a submission that is
    rejected locally while results are on display shows the banner and
    keeps showing those results. *)
Theorem stale_results_with_banner (API_URL : option string) (st : State)
    (items : list JsValue) :
  results st = JArr items -> items <> [] ->
  passes_checks API_URL st = false ->
  exists st',
    handleSubmit API_URL st = Returned st'
    /\ results st' = JArr items
    /\ banner_shown (error st') = true
    /\ list_shown items = true
    /\ hint_shown (loading st') (error st') items = false.
Proof.
  intros Hr Hi P.
  pose proof (handleSubmit_error API_URL st) as E.
  pose proof (handleSubmit_keeps_results API_URL st) as K.
  destruct (handleSubmit_returns API_URL st P) as [msg R]. rewrite R in E, K.
  eexists. split; [exact R|]. destruct E as (msg' & E & T).
  split; [rewrite K; exact Hr|].
  assert (B : banner_shown (error (setError (Some msg) (setError None st))) = true).
  { rewrite E. exact T. }
  assert (L : list_shown items = true).
  { destruct items; [contradiction Hi; reflexivity|reflexivity]. }
  split; [exact B|]. split; [exact L|].
  rewrite hint_alone, B, L. cbn [negb]. apply andb_false_r.
Qed.

Lemma stale_results_with_banner_witness :
  exists st',
    handleSubmit None Samples.blank_after_results = Returned st'
    /\ results st' = JArr [Samples.tribulation]
    /\ banner_shown (error st') = true
    /\ list_shown [Samples.tribulation] = true
    /\ hint_shown (loading st') (error st') [Samples.tribulation] = false.
Proof.
  apply (stale_results_with_banner None Samples.blank_after_results
           [Samples.tribulation]).
  - reflexivity.
  - discriminate.
  - reflexivity.
Defined.

(** * How the events compose *)

(** When two settlements follow each other, the second one decides the
    result list and the loading flag, whatever the first one did.  It
    does not decide the error: if the first one failed and the second one
    succeeded, the message of the first stays in the error slot next to
    the results of the second. *)
Theorem last_settlement_wins (o1 o2 : FetchOutcome) (st : State) :
  results (settle o2 (settle o1 st)) = results (settle o2 st)
  /\ loading (settle o2 (settle o1 st)) = false
  /\ (failure_message o2 = None ->
      forall msg,
        failure_message o1 = Some msg ->
        error (settle o2 (settle o1 st)) = Some msg
        /\ results (settle o2 (settle o1 st)) = success_value o2).
Proof.
  rewrite (settle_by_cases o2 (settle o1 st)), (settle_by_cases o2 st),
    (settle_by_cases o1 st).
  destruct (failure_message o2) as [m2|].
  - split; [reflexivity|]. split; [reflexivity|]. discriminate.
  - split; [reflexivity|]. split; [reflexivity|].
    intros _ msg ->. split; reflexivity.
Qed.

Lemma last_settlement_wins_witness :
  error (settle (Normal Samples.found) (settle (Normal Samples.rate_limited) initial))
  = Some "rate limited"
  /\ results (settle (Normal Samples.found) (settle (Normal Samples.rate_limited) initial))
     = success_value (Normal Samples.found).
Proof.
  apply (proj2 (proj2 (last_settlement_wins (Normal Samples.rate_limited)
                         (Normal Samples.found) initial))).
  - reflexivity.
  - reflexivity.
Defined.

(** An edit of the input and a settlement do not interfere: they can
    happen in either order with the same result, so typing while a
    request is in flight changes neither the request nor what its answer
    will show. *)
Theorem edit_commutes_with_settlement (API_URL : option string) (m : Machine)
    (v : string) (i : nat) (o : FetchOutcome) :
  settle o (setQuery v (view m)) = setQuery v (settle o (view m))
  /\ run API_URL m [Change v; Settle i o] = run API_URL m [Settle i o; Change v].
Proof.
  assert (H : settle o (setQuery v (view m)) = setQuery v (settle o (view m))).
  { rewrite !settle_by_cases. destruct (failure_message o); reflexivity. }
  split; [exact H|].
  cbn. destruct (nth_error (inflight m) i); [|reflexivity].
  cbn. rewrite H. reflexivity.
Qed.

(** Submitting again after a local rejection, with nothing changed in
    between, leaves the state exactly as the first rejection left it. *)
Theorem rejected_submission_idempotent (API_URL : option string) (st st' : State) :
  handleSubmit API_URL st = Returned st' ->
  handleSubmit API_URL st' = Returned st'.
Proof.
  intros H. destruct (truthy_opt API_URL) eqn:E.
  - destruct (truthy (trim (query st))) eqn:T.
    + rewrite handleSubmit_dispatches in H; [discriminate|].
      unfold passes_checks. rewrite E, T. reflexivity.
    + apply truthy_false_iff in T.
      rewrite (handleSubmit_blank API_URL st E T) in H. injection H as <-.
      rewrite handleSubmit_blank; [reflexivity|exact E|exact T].
  - rewrite (handleSubmit_unconfigured API_URL st E) in H. injection H as <-.
    rewrite handleSubmit_unconfigured; [reflexivity|exact E].
Qed.

Lemma rejected_submission_idempotent_witness :
  handleSubmit None (setError (Some "VITE_API_URL is not configured.") initial)
  = Returned (setError (Some "VITE_API_URL is not configured.") initial).
Proof.
  apply (rejected_submission_idempotent None initial). reflexivity.
Defined.

(** * A tie between two shortest numerals *)

(** 2^46 + 3/8 lies midway between the two-decimal numerals ending in
    .37 and .38; the even one is printed. *)
Example printed_tie :
  JsNumber.toString (JsNumber.of_ratio false (2 ^ 46 * 8 + 3) 8) = "70368744177664.38".
Proof. vm_compute. reflexivity. Qed.
